(** * failover: retry with exponential backoff, and a circuit breaker

    A shallow embedding of [failover.go].  The two exported operations,
    [Retry] and [CircuitBreaker.Execute], are translated into functions
    that pass the state of the outside world explicitly:

    - the outside world (clock, context, whatever the work function
      touches) is a value of an arbitrary type [W];
    - a [WorkFunc] is a function from the world to an optional error and
      a new world;
    - Go's [int] and [time.Duration] are 64-bit signed integers, written
      as [Z] with the wrap-around of [+] and [*] spelled out;
    - each operation also returns the list of [Event]s it performed
      (work invocations, completed waits, observed cancellation), a ghost
      log used to count invocations and to read off the waits.

    The breaker is embedded for a single goroutine whose work function
    does not call back into the same breaker: the breaker's fields are
    threaded as a value next to the world, not stored inside it. *)

From Stdlib Require Import String ZArith List Bool Lia.
Import ListNotations.
Local Open Scope Z_scope.

(** ** Machine integers, durations and instants *)

Definition minInt64 : Z := - 2 ^ 63.
Definition maxInt64 : Z := 2 ^ 63 - 1.

(** A value that fits Go's [int] (64 bits on the platforms of interest)
    and [time.Duration] ([int64]). *)
Definition in_int64 (z : Z) : Prop := minInt64 <= z <= maxInt64.

(** Two's complement wrap-around of an arithmetic result. *)
Definition wrap64 (z : Z) : Z := (z + 2 ^ 63) mod 2 ^ 64 - 2 ^ 63.

(** [time.Duration]: nanoseconds as an [int64]. *)
Definition Duration : Type := Z.

(** [time.Time]: an instant, in nanoseconds after the zero [Time]. *)
Definition Time : Type := Z.

(** The zero value of [time.Time], the value of a field left out of a
    composite literal. *)
Definition zeroTime : Time := 0.

(** [t.Sub(u)]: the difference of two instants, saturating at the
    largest and smallest [Duration]. *)
Definition time_Sub (t u : Time) : Duration :=
  if t - u >? maxInt64 then maxInt64
  else if t - u <? minInt64 then minInt64
  else t - u.

(** ** Errors *)

(** Go's [error] values; [nil] is [None] of [option error]. *)
Inductive error : Type :=
| ErrCircuitOpen
| context_Canceled
| context_DeadlineExceeded
| errors_New (msg : string).

(** ** The world seen by the package *)

(** [time.Now()] reads the clock of the world. *)
Class Clock (W : Type) : Type := { time_Now : W -> Time }.

(** [time.Since(t)] is [time.Now().Sub(t)]. *)
Definition time_Since {W : Type} `{Clock W} (w : W) (t : Time) : Duration :=
  time_Sub (time_Now w) t.

(** [type WorkFunc func() error] *)
Definition WorkFunc (W : Type) : Type := W -> option error * W.

(** Which case of [select { case <-time.After(delay): ... case <-ctx.Done(): ... }]
    was taken. *)
Inductive Wake : Type := TimerFired | CtxFired.

(** The part of [context.Context] that [Retry] uses.  [Done w] tells
    whether the channel [ctx.Done()] is closed in world [w]; [Err] is
    [ctx.Err()]; [await d w] is the blocking [select] on
    [time.After(d)] and [ctx.Done()], giving the case taken and the
    world when it returns.  The two laws are the documented contract of
    the interface: once [Done] is closed [Err] is not nil, and the
    [ctx.Done()] case is only taken when the channel is closed. *)
Record Ctx (W : Type) : Type := {
  Done : W -> bool;
  Err : W -> option error;
  await : Duration -> W -> Wake * W;
  Err_after_Done : forall w, Done w = true -> Err w <> None;
  await_CtxFired : forall d w,
      fst (await d w) = CtxFired -> Done (snd (await d w)) = true
}.
Arguments Done {W} _ _.
Arguments Err {W} _ _.
Arguments await {W} _ _ _.
Arguments Err_after_Done {W} _ _ _.
Arguments await_CtxFired {W} _ _ _ _.

(** Ghost log of what an operation did, in order. *)
Inductive Event : Type :=
| EvCall (r : option error)      (* [fn()] was invoked and returned [r] *)
| EvWait (d : Duration)          (* [<-time.After(d)] completed *)
| EvCancelled.                   (* a [<-ctx.Done()] case was taken *)

(** Results of the work invocations of a log. *)
Fixpoint calls_of (tr : list Event) : list (option error) :=
  match tr with
  | [] => []
  | EvCall r :: tr' => r :: calls_of tr'
  | _ :: tr' => calls_of tr'
  end.

(** Durations of the completed waits of a log. *)
Fixpoint waits_of (tr : list Event) : list Duration :=
  match tr with
  | [] => []
  | EvWait d :: tr' => d :: waits_of tr'
  | _ :: tr' => waits_of tr'
  end.

(** ** Retry *)

(** What a call of [Retry] gives: the returned error, the world when it
    returns, and the log of what it did. *)
Record Outcome (W : Type) : Type := {
  result : option error;
  world : W;
  trace : list Event
}.
Arguments Build_Outcome {W} _ _ _.
Arguments result {W} _.
Arguments world {W} _.
Arguments trace {W} _.

Section RetryDef.
Context {W : Type}.
Variable ctx : Ctx W.
Variable attempts : Z.
Variable fn : WorkFunc W.

(** The body of [for i := range attempts], with [n] iterations left,
    loop index [i], and the current values of [delay] and [err].
    Leaving the loop ([n = 0], or [break]) returns [err]. *)
Fixpoint Retry_loop (n : nat) (i : Z) (delay : Duration) (err : option error)
         (w : W) : Outcome W :=
  match n with
  | O => Build_Outcome err w []
  | S n' =>
      if Done ctx w then Build_Outcome (Err ctx w) w [EvCancelled]
      else
        let '(err1, w1) := fn w in
        match err1 with
        | None => Build_Outcome None w1 [EvCall err1]
        | Some _ =>
            if i =? wrap64 (attempts - 1)
            then Build_Outcome err1 w1 [EvCall err1]
            else
              match await ctx delay w1 with
              | (TimerFired, w2) =>
                  let o := Retry_loop n' (i + 1) (wrap64 (delay * 2)) err1 w2 in
                  Build_Outcome (result o) (world o)
                                (EvCall err1 :: EvWait delay :: trace o)
              | (CtxFired, w2) =>
                  Build_Outcome (Err ctx w2) w2 [EvCall err1; EvCancelled]
              end
        end
  end.
End RetryDef.

(** [func Retry(ctx, attempts, initialDelay, fn) error] *)
Definition Retry {W : Type} (ctx : Ctx W) (attempts : Z)
           (initialDelay : Duration) (fn : WorkFunc W) (w : W) : Outcome W :=
  Retry_loop ctx attempts fn (Z.to_nat attempts) 0 initialDelay None w.

(** [k] whole iterations of the loop of [Retry] none of which leaves it:
    at each of them the context is not done at the check, the work
    function returns an error, and the wait runs to its end.  Gives the
    delay and the world at the start of the next iteration and the log
    so far; [None] when one of the [k] iterations goes otherwise. *)
Fixpoint failed_rounds {W : Type} (ctx : Ctx W) (fn : WorkFunc W) (k : nat)
         (delay : Duration) (w : W) : option (Duration * W * list Event) :=
  match k with
  | O => Some (delay, w, [])
  | S k' =>
      if Done ctx w then None
      else
        match fn w with
        | (None, _) => None
        | (Some e, w1) =>
            match await ctx delay w1 with
            | (CtxFired, _) => None
            | (TimerFired, w2) =>
                match failed_rounds ctx fn k' (wrap64 (delay * 2)) w2 with
                | None => None
                | Some (delay', w', tr) =>
                    Some (delay', w', EvCall (Some e) :: EvWait delay :: tr)
                end
            end
        end
  end.

(** The log of a run of attempts with results [rs] separated by waits:
    the wait after the first attempt lasts [delay] and each later one
    twice the one before, every duration reduced to the [int64] range.
    No wait follows the last attempt. *)
Fixpoint schedule (delay : Z) (rs : list (option error)) : list Event :=
  match rs with
  | [] => []
  | r :: rs' =>
      EvCall r ::
      match rs' with
      | [] => []
      | _ :: _ => EvWait (wrap64 delay) :: schedule (delay * 2) rs'
      end
  end.

(** ** CircuitBreaker *)

Inductive State : Type := Closed | Open | HalfOpen.

(** The fields of [struct CircuitBreaker] apart from the mutex. *)
Record CircuitBreaker : Type := {
  state : State;
  failureThreshold : Z;
  successThreshold : Z;
  openTimeout : Duration;
  failureCount : Z;
  successCount : Z;
  lastFailureTime : Time
}.

Definition set_state (s : State) (cb : CircuitBreaker) : CircuitBreaker :=
  {| state := s;
     failureThreshold := failureThreshold cb;
     successThreshold := successThreshold cb;
     openTimeout := openTimeout cb;
     failureCount := failureCount cb;
     successCount := successCount cb;
     lastFailureTime := lastFailureTime cb |}.

Definition set_failureCount (n : Z) (cb : CircuitBreaker) : CircuitBreaker :=
  {| state := state cb;
     failureThreshold := failureThreshold cb;
     successThreshold := successThreshold cb;
     openTimeout := openTimeout cb;
     failureCount := n;
     successCount := successCount cb;
     lastFailureTime := lastFailureTime cb |}.

Definition set_successCount (n : Z) (cb : CircuitBreaker) : CircuitBreaker :=
  {| state := state cb;
     failureThreshold := failureThreshold cb;
     successThreshold := successThreshold cb;
     openTimeout := openTimeout cb;
     failureCount := failureCount cb;
     successCount := n;
     lastFailureTime := lastFailureTime cb |}.

Definition set_lastFailureTime (t : Time) (cb : CircuitBreaker) : CircuitBreaker :=
  {| state := state cb;
     failureThreshold := failureThreshold cb;
     successThreshold := successThreshold cb;
     openTimeout := openTimeout cb;
     failureCount := failureCount cb;
     successCount := successCount cb;
     lastFailureTime := t |}.

(** [func NewCircuitBreaker(failureThreshold, successThreshold, openTimeout)] *)
Definition NewCircuitBreaker (failureThreshold0 successThreshold0 : Z)
           (openTimeout0 : Duration) : CircuitBreaker :=
  {| state := Closed;
     failureThreshold := failureThreshold0;
     successThreshold := successThreshold0;
     openTimeout := openTimeout0;
     failureCount := 0;
     successCount := 0;
     lastFailureTime := zeroTime |}.

(** [func (cb *CircuitBreaker) onSuccess() error] *)
Definition onSuccess (cb : CircuitBreaker) : option error * CircuitBreaker :=
  match state cb with
  | HalfOpen =>
      let cb1 := set_successCount (wrap64 (successCount cb + 1)) cb in
      if successCount cb1 >=? successThreshold cb1
      then (None, set_failureCount 0 (set_state Closed cb1))
      else (None, cb1)
  | Closed => (None, set_failureCount 0 cb)
  | Open => (None, cb)
  end.

(** What a call of [Execute] gives: the returned error, the breaker and
    the world when it returns, and the log of what it did. *)
Record Executed (W : Type) : Type := {
  returned : option error;
  breaker : CircuitBreaker;
  world_after : W;
  log : list Event
}.
Arguments Build_Executed {W} _ _ _ _.
Arguments returned {W} _.
Arguments breaker {W} _.
Arguments world_after {W} _.
Arguments log {W} _.

Section BreakerDef.
Context {W : Type} `{Clock W}.

(** [func (cb *CircuitBreaker) onFailure() error] *)
Definition onFailure (cb : CircuitBreaker) (w : W)
  : option error * CircuitBreaker :=
  match state cb with
  | HalfOpen =>
      (None, set_lastFailureTime (time_Now w) (set_state Open cb))
  | Closed =>
      let cb1 := set_failureCount (wrap64 (failureCount cb + 1)) cb in
      if failureCount cb1 >=? failureThreshold cb1
      then (None, set_lastFailureTime (time_Now w) (set_state Open cb1))
      else (None, cb1)
  | Open => (None, cb)
  end.

(** The first critical section of [Execute]: [None] when the call is
    rejected, otherwise the breaker as it is when the lock is released
    before the work function runs. *)
Definition Execute_gate (cb : CircuitBreaker) (w : W) : option CircuitBreaker :=
  match state cb with
  | Open =>
      if time_Since w (lastFailureTime cb) >? openTimeout cb
      then Some (set_successCount 0 (set_state HalfOpen cb))
      else None
  | _ => Some cb
  end.

(** [func (cb *CircuitBreaker) Execute(fn WorkFunc) error] *)
Definition Execute (fn : WorkFunc W) (cb : CircuitBreaker) (w : W)
  : Executed W :=
  match Execute_gate cb w with
  | None => Build_Executed (Some ErrCircuitOpen) cb w []
  | Some cb1 =>
      let '(err, w1) := fn w in
      match err with
      | None =>
          let '(r, cb2) := onSuccess cb1 in
          Build_Executed r cb2 w1 [EvCall err]
      | Some _ =>
          let '(_, cb2) := onFailure cb1 w1 in
          Build_Executed err cb2 w1 [EvCall err]
      end
  end.

(** A history of [Execute] calls on one breaker.  Each call is given
    by its work function and the world in which it is made, so that
    anything may happen between two calls.  The result lists what each
    call returned and gives the breaker after the last one. *)
Fixpoint Execute_all (calls : list (WorkFunc W * W)) (cb : CircuitBreaker)
  : list (option error) * CircuitBreaker :=
  match calls with
  | [] => ([], cb)
  | (fn, w) :: rest =>
      let o := Execute fn cb w in
      let '(rs, cb2) := Execute_all rest (breaker o) in
      (returned o :: rs, cb2)
  end.

(** The work function of a call returns an error / returns nil. *)
Definition call_fails (c : WorkFunc W * W) : Prop :=
  fst (fst c (snd c)) <> None.
Definition call_succeeds (c : WorkFunc W * W) : Prop :=
  fst (fst c (snd c)) = None.
End BreakerDef.

(** ** Measures and invariants used by the properties *)

(** Time spent in the completed waits of a log. *)
Definition total_wait (tr : list Event) : Z :=
  fold_right Z.add 0 (waits_of tr).

(** A breaker whose thresholds are positive [int]s and whose counts are
    where the bookkeeping keeps them: never negative, never above their
    threshold, and strictly below it in the state that counts them. *)
Definition breaker_ok (cb : CircuitBreaker) : Prop :=
  1 <= failureThreshold cb <= maxInt64 /\
  1 <= successThreshold cb <= maxInt64 /\
  0 <= failureCount cb <= failureThreshold cb /\
  0 <= successCount cb <= successThreshold cb /\
  (state cb = Closed -> failureCount cb < failureThreshold cb) /\
  (state cb = HalfOpen -> successCount cb < successThreshold cb).

(** A history made of streaks: each streak is a list of calls followed
    by one more call. *)
Definition streaks {W : Type}
           (blocks : list (list (WorkFunc W * W) * (WorkFunc W * W)))
  : list (WorkFunc W * W) :=
  flat_map (fun b => fst b ++ [snd b]) blocks.

(** ** A concrete world, used to run the operations on examples *)

Module Demo.

(** A clock, the number of times the work function has run, and
    whether the cancellable context has been cancelled. *)
Record World : Type := {
  clock : Time;
  invocations : nat;
  cancelled : bool
}.

#[global] Instance World_Clock : Clock World := {| time_Now := clock |}.

Definition at_time (t : Time) : World :=
  {| clock := t; invocations := 0; cancelled := false |}.

(** Time passes: a wait of [d] moves the clock by [d] when [d] is
    positive and returns at once otherwise. *)
Definition sleep (d : Duration) (w : World) : World :=
  {| clock := clock w + Z.max d 0;
     invocations := invocations w;
     cancelled := cancelled w |}.

Definition invoked (w : World) : World :=
  {| clock := clock w;
     invocations := S (invocations w);
     cancelled := cancelled w |}.

Definition cancel (w : World) : World :=
  {| clock := clock w;
     invocations := invocations w;
     cancelled := true |}.

Definition errTest : error := errors_New "test error".

(** [func() error { return errTest }] *)
Definition fail : WorkFunc World := fun w => (Some errTest, invoked w).

(** [func() error { return nil }] *)
Definition succeed : WorkFunc World := fun w => (None, invoked w).

(** Fails on its first [k] invocations, then succeeds. *)
Definition fail_first (k : nat) : WorkFunc World :=
  fun w => if (invocations w <? k)%nat
           then (Some errTest, invoked w)
           else (None, invoked w).

(** Fails, and cancels the context while it runs. *)
Definition fail_and_cancel : WorkFunc World :=
  fun w => (Some errTest, cancel (invoked w)).

(** Fails every time, and cancels the context during invocation
    number [k] (counting from 0). *)
Definition fail_cancel_at (k : nat) : WorkFunc World :=
  fun w => (Some errTest,
            if (invocations w =? k)%nat then cancel (invoked w)
            else invoked w).

(** [context.Background()]: never done. *)
Definition Background : Ctx World.
Proof.
  refine {| Done := fun _ => false;
            Err := fun _ => None;
            await := fun d w => (TimerFired, sleep d w) |}.
  - intros w Hw. discriminate Hw.
  - intros d w Hw. discriminate Hw.
Defined.

(** A context from [context.WithCancel], done once [cancelled] is set;
    a wait is cut short exactly when the context is already done. *)
Definition WithCancel : Ctx World.
Proof.
  refine {| Done := cancelled;
            Err := fun w => if cancelled w then Some context_Canceled else None;
            await := fun d w => if cancelled w then (CtxFired, w)
                                else (TimerFired, sleep d w) |}.
  - intros w Hw. rewrite Hw. discriminate.
  - intros d w. destruct (cancelled w) eqn:Hc; simpl; [trivial | discriminate].
Defined.

(** A context from [context.WithDeadline] with deadline [t]: done once
    the clock has reached [t].  A wait that would end after the deadline
    is cut short at the deadline; one that ends at the deadline or
    before runs to its end. *)
Definition WithDeadline (t : Time) : Ctx World.
Proof.
  refine {| Done := fun w => t <=? clock w;
            Err := fun w => if t <=? clock w
                            then Some context_DeadlineExceeded else None;
            await := fun d w =>
                       if clock w + Z.max d 0 <=? t
                       then (TimerFired, sleep d w)
                       else (CtxFired,
                             {| clock := Z.max t (clock w);
                                invocations := invocations w;
                                cancelled := cancelled w |}) |}.
  - intros w Hw. rewrite Hw. discriminate.
  - intros d w. destruct (clock w + Z.max d 0 <=? t); simpl.
    + discriminate.
    + intros _. apply Z.leb_le. apply Z.le_max_l.
Defined.

Definition ms (n : Z) : Duration := n * 1000000.

(** [NewCircuitBreaker(2, 2, 100*time.Millisecond)] after two failed
    calls, the second of them at instant [t]. *)
Definition tripped (t : Time) : CircuitBreaker :=
  {| state := Open;
     failureThreshold := 2;
     successThreshold := 2;
     openTimeout := ms 100;
     failureCount := 2;
     successCount := 0;
     lastFailureTime := t |}.

End Demo.

(** * Properties *)

(** ** Wrap-around *)

Lemma wrap64_small (z : Z) : in_int64 z -> wrap64 z = z.
Proof.
  unfold in_int64, wrap64, minInt64, maxInt64. intros Hz.
  rewrite Z.mod_small; lia.
Qed.

Lemma wrap64_range (z : Z) : in_int64 (wrap64 z).
Proof.
  unfold in_int64, wrap64, minInt64, maxInt64.
  pose proof (Z.mod_pos_bound (z + 2 ^ 63) (2 ^ 64) ltac:(lia)). lia.
Qed.

(** Doubling a wrapped value and wrapping again is wrapping the double. *)
Lemma wrap64_double (z : Z) : wrap64 (wrap64 z * 2) = wrap64 (z * 2).
Proof.
  unfold wrap64.
  replace ((z + 2 ^ 63) mod 2 ^ 64 - 2 ^ 63) with
    (z - 2 ^ 64 * ((z + 2 ^ 63) / 2 ^ 64))
    by (pose proof (Z.div_mod (z + 2 ^ 63) (2 ^ 64) ltac:(lia)); lia).
  f_equal.
  replace ((z - 2 ^ 64 * ((z + 2 ^ 63) / 2 ^ 64)) * 2 + 2 ^ 63) with
    (z * 2 + 2 ^ 63 + (- 2 * ((z + 2 ^ 63) / 2 ^ 64)) * 2 ^ 64) by lia.
  apply Z_mod_plus_full.
Qed.

(** ** Retry *)

Section RetryFacts.
Context {W : Type}.
Variable ctx : Ctx W.
Variable attempts : Z.
Variable fn : WorkFunc W.

(** A context that is never done lets every wait run to its end. *)
Lemma await_never_done (d : Duration) (w : W) :
  (forall w', Done ctx w' = false) ->
  await ctx d w = (TimerFired, snd (await ctx d w)).
Proof.
  intros Hlive.
  destruct (await ctx d w) as [wk w2] eqn:Ha. simpl.
  destruct wk; [reflexivity|].
  pose proof (await_CtxFired ctx d w) as Hlaw.
  rewrite Ha in Hlaw. simpl in Hlaw.
  rewrite Hlive in Hlaw. discriminate (Hlaw eq_refl).
Qed.

(** One iteration of the loop. *)
Lemma Retry_loop_S (n : nat) (i : Z) (delay : Duration)
      (err : option error) (w : W) :
  Retry_loop ctx attempts fn (S n) i delay err w =
  if Done ctx w then Build_Outcome (Err ctx w) w [EvCancelled]
  else
    let '(err1, w1) := fn w in
    match err1 with
    | None => Build_Outcome None w1 [EvCall err1]
    | Some _ =>
        if i =? wrap64 (attempts - 1)
        then Build_Outcome err1 w1 [EvCall err1]
        else
          match await ctx delay w1 with
          | (TimerFired, w2) =>
              let o := Retry_loop ctx attempts fn n (i + 1)
                                  (wrap64 (delay * 2)) err1 w2 in
              Build_Outcome (result o) (world o)
                            (EvCall err1 :: EvWait delay :: trace o)
          | (CtxFired, w2) =>
              Build_Outcome (Err ctx w2) w2 [EvCall err1; EvCancelled]
          end
    end.
Proof. reflexivity. Qed.


(** The loop, when the context is never done and the outcome of the
    work function is decided by the number [count] of invocations so
    far: it fails while fewer than [k] were made and succeeds after
    exactly [k]. *)
Lemma Retry_loop_early_success (count : W -> nat) (k : nat) :
  (forall w, Done ctx w = false) ->
  (forall w, count (snd (fn w)) = S (count w)) ->
  (forall d w, count (snd (await ctx d w)) = count w) ->
  (forall w, (count w < k)%nat -> fst (fn w) <> None) ->
  (forall w, count w = k -> fst (fn w) = None) ->
  in_int64 attempts ->
  forall n i delay err w,
    i + Z.of_nat n = attempts -> 0 <= i ->
    (count w <= k)%nat -> (k - count w < n)%nat ->
    let o := Retry_loop ctx attempts fn n i delay err w in
    result o = None /\
    length (calls_of (trace o)) = S (k - count w).
Proof.
  intros Hlive Hstep Hwait Hbad Hgood Hatt.
  induction n as [|n IH]; intros i delay err w Hi Hpos Hle Hlt; [lia|].
  cbn zeta. rewrite Retry_loop_S, Hlive.
  destruct (Nat.eq_dec (count w) k) as [Hk|Hk].
  - pose proof (Hgood w Hk) as Hg.
    destruct (fn w) as [[e|] w1]; simpl in Hg; [discriminate|].
    simpl. split; [reflexivity|]. f_equal. lia.
  - pose proof (Hbad w ltac:(lia)) as Hb.
    pose proof (Hstep w) as Hc.
    destruct (fn w) as [[e|] w1]; simpl in Hb, Hc; [|congruence].
    rewrite wrap64_small by (unfold in_int64, minInt64, maxInt64 in *; lia).
    replace (i =? attempts - 1) with false by (symmetry; apply Z.eqb_neq; lia).
    rewrite (await_never_done delay w1 Hlive).
    pose proof (Hwait delay w1) as Hc2.
    specialize (IH (i + 1) (wrap64 (delay * 2)) (Some e)
                   (snd (await ctx delay w1))
                   ltac:(lia) ltac:(lia) ltac:(lia) ltac:(lia)).
    cbn zeta in IH. destruct IH as (Hres & Hlen).
    cbn [trace result calls_of length].
    split; [assumption|]. rewrite Hlen. lia.
Qed.
End RetryFacts.

(** C9: for every [attempts <= 0], [Retry] performs no invocation of the
    work function and returns nil, whatever the work function, the delay
    and the context (even a context that is already done): the [range]
    loop has no iteration and the initial nil [err] is returned. *)
Theorem Retry_nonpositive_attempts {W : Type} (ctx : Ctx W) (attempts : Z)
        (d : Duration) (fn : WorkFunc W) (w : W) :
  attempts <= 0 ->
  Retry ctx attempts d fn w = Build_Outcome None w [] /\
  calls_of (trace (Retry ctx attempts d fn w)) = [].
Proof.
  intros Hle. unfold Retry.
  replace (Z.to_nat attempts) with O by lia.
  split; reflexivity.
Qed.

Lemma Retry_nonpositive_attempts_witness :
  -5 <= 0 /\
  Retry Demo.WithCancel (-5) (Demo.ms 10) Demo.fail (Demo.cancel (Demo.at_time 0))
  = Build_Outcome None (Demo.cancel (Demo.at_time 0)) [] /\
  calls_of (trace (Retry Demo.WithCancel (-5) (Demo.ms 10) Demo.fail
                         (Demo.cancel (Demo.at_time 0)))) = [].
Proof.
  split; [lia|].
  apply (Retry_nonpositive_attempts Demo.WithCancel (-5) (Demo.ms 10) Demo.fail
                                    (Demo.cancel (Demo.at_time 0))).
  lia.
Defined.



(** C5: for every [N >= 1] and every [k < N], if the work function fails
    on its first [k] invocations and succeeds on invocation [k+1], then
    [Retry] invokes it exactly [k+1] times and returns nil; and a work
    function that never errors is invoked exactly once, with result nil,
    whatever [N >= 1] is.  "The first [k] invocations" is expressed with
    a counter [count] of the invocations made so far, which the work
    function increments and a wait leaves alone. *)
Theorem Retry_early_success {W : Type} (ctx : Ctx W) (N : Z)
        (d : Duration) (w : W) :
  1 <= N <= maxInt64 ->
  (forall w', Done ctx w' = false) ->
  (forall (fn : WorkFunc W) (count : W -> nat) (k : nat),
      Z.of_nat k < N ->
      count w = 0%nat ->
      (forall w', count (snd (fn w')) = S (count w')) ->
      (forall d' w', count (snd (await ctx d' w')) = count w') ->
      (forall w', (count w' < k)%nat -> fst (fn w') <> None) ->
      (forall w', count w' = k -> fst (fn w') = None) ->
      result (Retry ctx N d fn w) = None /\
      length (calls_of (trace (Retry ctx N d fn w))) = S k) /\
  (forall fn : WorkFunc W,
      (forall w', fst (fn w') = None) ->
      result (Retry ctx N d fn w) = None /\
      calls_of (trace (Retry ctx N d fn w)) = [None]).
Proof.
  intros HN Hlive. split.
  - intros fn count k Hk H0 Hstep Hwait Hbad Hgood. unfold Retry.
    pose proof (Retry_loop_early_success ctx N fn count k Hlive Hstep Hwait
                  Hbad Hgood) as HL.
    specialize (HL ltac:(unfold in_int64, minInt64, maxInt64 in *; lia)
                   (Z.to_nat N) 0 d None w
                   ltac:(lia) ltac:(lia) ltac:(lia) ltac:(lia)).
    cbn zeta in HL. rewrite H0, Nat.sub_0_r in HL. exact HL.
  - intros fn Hok. unfold Retry.
    destruct (Z.to_nat N) as [|n] eqn:Hn; [lia|].
    rewrite Retry_loop_S, Hlive.
    pose proof (Hok w) as Hw.
    destruct (fn w) as [[e|] w1]; simpl in Hw; [discriminate|].
    split; reflexivity.
Qed.

Lemma Retry_early_success_witness :
  1 <= 5 <= maxInt64 /\
  (forall w', Done Demo.Background w' = false) /\
  result (Retry Demo.Background 5 (Demo.ms 10) (Demo.fail_first 2)
                (Demo.at_time 0)) = None /\
  length (calls_of (trace (Retry Demo.Background 5 (Demo.ms 10)
                                 (Demo.fail_first 2) (Demo.at_time 0)))) = 3%nat /\
  calls_of (trace (Retry Demo.Background 5 (Demo.ms 10) Demo.succeed
                         (Demo.at_time 0))) = [None].
Proof.
  assert (H1 : 1 <= 5 <= maxInt64) by (unfold maxInt64; lia).
  assert (H2 : forall w', Done Demo.Background w' = false) by reflexivity.
  destruct (Retry_early_success Demo.Background 5 (Demo.ms 10) (Demo.at_time 0)
                                H1 H2) as [Hk Hone].
  specialize (Hk (Demo.fail_first 2) Demo.invocations 2%nat).
  destruct Hk as [Hr Hl].
  - simpl; lia.
  - reflexivity.
  - intros w'. unfold Demo.fail_first.
    destruct (Demo.invocations w' <? 2)%nat; reflexivity.
  - intros d' w'. reflexivity.
  - intros w' Hlt. unfold Demo.fail_first.
    apply Nat.ltb_lt in Hlt. rewrite Hlt. discriminate.
  - intros w' Heq. unfold Demo.fail_first.
    rewrite Heq. reflexivity.
  - destruct (Hone Demo.succeed) as [_ Hc]; [reflexivity|].
    exact (conj H1 (conj H2 (conj Hr (conj Hl Hc)))).
Defined.

(** *** Cancellation *)

Section RetryCancel.
Context {W : Type}.
Variable ctx : Ctx W.
Variable attempts : Z.
Variable fn : WorkFunc W.

(** Whenever the loop takes a [<-ctx.Done()] case it returns
    [ctx.Err()] at once: the cancellation is the last event, and the
    context is done in the world the loop returns in. *)
Lemma Retry_loop_cancelled :
  forall n i delay err w,
    let o := Retry_loop ctx attempts fn n i delay err w in
    In EvCancelled (trace o) ->
    result o = Err ctx (world o) /\
    Done ctx (world o) = true /\
    exists tr0, trace o = tr0 ++ [EvCancelled] /\
                ~ In EvCancelled tr0 /\
                calls_of (trace o) = calls_of tr0.
Proof.
  induction n as [|n IH]; intros i delay err w o Hin; subst o.
  - simpl in Hin. contradiction.
  - rewrite Retry_loop_S in *.
    destruct (Done ctx w) eqn:Hd.
    + simpl. repeat split; try assumption.
      exists []. repeat split. intros [].
    + destruct (fn w) as [[e|] w1].
      * destruct (i =? wrap64 (attempts - 1)).
        -- simpl in Hin. destruct Hin as [Hin|[]]. discriminate Hin.
        -- pose proof (await_CtxFired ctx delay w1) as Hlaw.
           destruct (await ctx delay w1) as [[|] w2]; simpl in Hlaw.
           ++ cbn zeta in *. cbn [trace result world] in *.
              destruct Hin as [Hin|[Hin|Hin]]; try discriminate Hin.
              destruct (IH _ _ _ _ Hin) as (Hr & Hdone & tr0 & Htr & Hno & Hc).
              repeat split; try assumption.
              exists (EvCall (Some e) :: EvWait delay :: tr0).
              rewrite Htr. repeat split.
              ** intros [Hx|[Hx|Hx]]; try discriminate Hx. exact (Hno Hx).
              ** simpl. f_equal. rewrite <- Htr. exact Hc.
           ++ simpl. repeat split; [exact (Hlaw eq_refl)|].
              exists [EvCall (Some e)]. repeat split.
              intros [Hx|[]]. discriminate Hx.
      * simpl in Hin. destruct Hin as [Hin|[]]. discriminate Hin.
Qed.
(** The first iteration of the loop does not read [err]. *)
Lemma Retry_loop_err_unused (n : nat) (i : Z) (delay : Duration)
      (err err' : option error) (w : W) :
  Retry_loop ctx attempts fn (S n) i delay err w
  = Retry_loop ctx attempts fn (S n) i delay err' w.
Proof.
  rewrite !Retry_loop_S. reflexivity.
Qed.

Lemma calls_of_failed_rounds :
  forall k delay w delay' w' tr,
    failed_rounds ctx fn k delay w = Some (delay', w', tr) ->
    length (calls_of tr) = k /\ ~ In EvCancelled tr.
Proof.
  induction k as [|k IH]; intros delay w delay' w' tr Hk.
  - injection Hk as _ _ <-. split; [reflexivity | intros []].
  - cbn [failed_rounds] in Hk.
    destruct (Done ctx w); [discriminate Hk|].
    destruct (fn w) as [[e|] w1]; [|discriminate Hk].
    destruct (await ctx delay w1) as [[|] w2]; [|discriminate Hk].
    destruct (failed_rounds ctx fn k (wrap64 (delay * 2)) w2)
      as [[[d2 w3] tr2]|] eqn:Hrec; [|discriminate Hk].
    injection Hk as _ _ <-.
    destruct (IH _ _ _ _ _ Hrec) as [Hlen Hno].
    split; [simpl; f_equal; exact Hlen|].
    intros [Hx|[Hx|Hx]]; try discriminate Hx. exact (Hno Hx).
Qed.

(** After [k] iterations that do not leave the loop, with at least one
    more to go, a run of the loop is the log of those [k] iterations
    followed by a run of the rest from the world they reach. *)
Lemma Retry_loop_after_rounds :
  in_int64 attempts ->
  forall k m i delay err w delay' w' tr,
    i + Z.of_nat (k + S m) = attempts -> 0 <= i ->
    failed_rounds ctx fn k delay w = Some (delay', w', tr) ->
    Retry_loop ctx attempts fn (k + S m) i delay err w
    = Build_Outcome
        (result (Retry_loop ctx attempts fn (S m) (i + Z.of_nat k) delay' err w'))
        (world (Retry_loop ctx attempts fn (S m) (i + Z.of_nat k) delay' err w'))
        (tr ++ trace (Retry_loop ctx attempts fn (S m) (i + Z.of_nat k)
                                 delay' err w')).
Proof.
  intros Hatt.
  induction k as [|k IH]; intros m i delay err w delay' w' tr Hi Hpos Hk.
  - injection Hk as <- <- <-. cbn [Nat.add app].
    change (Z.of_nat 0) with 0. rewrite Z.add_0_r.
    destruct (Retry_loop ctx attempts fn (S m) i delay err w). reflexivity.
  - cbn [failed_rounds] in Hk. cbn [Nat.add].
    rewrite Retry_loop_S.
    destruct (Done ctx w); [discriminate Hk|].
    destruct (fn w) as [[e|] w1]; [|discriminate Hk].
    rewrite wrap64_small by (unfold in_int64, minInt64, maxInt64 in *; lia).
    replace (i =? attempts - 1) with false by (symmetry; apply Z.eqb_neq; lia).
    destruct (await ctx delay w1) as [[|] w2]; [|discriminate Hk].
    destruct (failed_rounds ctx fn k (wrap64 (delay * 2)) w2)
      as [[[d2 w3] tr2]|] eqn:Hrec; [|discriminate Hk].
    injection Hk as <- <- <-.
    cbn zeta.
    rewrite (IH m (i + 1) (wrap64 (delay * 2)) (Some e) w2 d2 w3 tr2
                ltac:(lia) ltac:(lia) Hrec).
    cbn [result world trace].
    replace (i + 1 + Z.of_nat k) with (i + Z.of_nat (S k)) by lia.
    rewrite (Retry_loop_err_unused m (i + Z.of_nat (S k)) d2 (Some e) err w3).
    reflexivity.
Qed.
End RetryCancel.

(** C6: cancellation takes precedence at every iteration.  Let the
    first [k] iterations, [k < attempts], run without leaving the loop
    ([failed_rounds]) and reach the world [wk].  If the context is done
    at the check that opens iteration [k], [Retry] returns [ctx.Err()]
    after exactly those [k] invocations; if it is not, the work function
    fails and the wait that follows is cut short by the context, [Retry]
    returns [ctx.Err()] after exactly [k+1] invocations.  In both cases
    the cancellation is the last event of the log: no invocation of the
    work function follows it.  Conversely, whenever a run observes a
    cancellation it returns [ctx.Err()], which is not nil, whatever
    errors the work function returned before, and the observation is
    the last thing it does.  The cases [k = 0] are a context already
    done on entry and a first wait cut short. *)
Theorem Retry_cancellation_precedence {W : Type} (ctx : Ctx W) (attempts : Z)
        (d : Duration) (fn : WorkFunc W) (w : W) :
  (In EvCancelled (trace (Retry ctx attempts d fn w)) ->
   result (Retry ctx attempts d fn w) = Err ctx (world (Retry ctx attempts d fn w)) /\
   result (Retry ctx attempts d fn w) <> None /\
   exists tr0,
     trace (Retry ctx attempts d fn w) = tr0 ++ [EvCancelled] /\
     ~ In EvCancelled tr0 /\
     calls_of (trace (Retry ctx attempts d fn w)) = calls_of tr0) /\
  (1 <= attempts -> Done ctx w = true ->
   Retry ctx attempts d fn w = Build_Outcome (Err ctx w) w [EvCancelled]) /\
  (2 <= attempts <= maxInt64 -> Done ctx w = false ->
   forall e, fst (fn w) = Some e ->
   fst (await ctx d (snd (fn w))) = CtxFired ->
   Retry ctx attempts d fn w =
   Build_Outcome (Err ctx (snd (await ctx d (snd (fn w)))))
                 (snd (await ctx d (snd (fn w))))
                 [EvCall (Some e); EvCancelled]) /\
  (forall (k : nat) (delay : Duration) (wk : W) (tr : list Event),
      attempts <= maxInt64 ->
      Z.of_nat k < attempts ->
      failed_rounds ctx fn k d w = Some (delay, wk, tr) ->
      (length (calls_of tr) = k /\ ~ In EvCancelled tr) /\
      (Done ctx wk = true ->
       Retry ctx attempts d fn w
       = Build_Outcome (Err ctx wk) wk (tr ++ [EvCancelled]) /\
       Err ctx wk <> None) /\
      (Done ctx wk = false ->
       forall e, fst (fn wk) = Some e ->
       Z.of_nat k < attempts - 1 ->
       fst (await ctx delay (snd (fn wk))) = CtxFired ->
       Retry ctx attempts d fn w
       = Build_Outcome (Err ctx (snd (await ctx delay (snd (fn wk)))))
                       (snd (await ctx delay (snd (fn wk))))
                       (tr ++ [EvCall (Some e); EvCancelled]) /\
       Err ctx (snd (await ctx delay (snd (fn wk)))) <> None)).
Proof.
  split; [|split; [|split]].
  - intros Hin.
    destruct (Retry_loop_cancelled ctx attempts fn _ _ _ _ _ Hin)
      as (Hr & Hdone & Htr).
    split; [exact Hr|]. split; [|exact Htr].
    unfold Retry in *. rewrite Hr. apply Err_after_Done. exact Hdone.
  - intros Hatt Hd. unfold Retry.
    destruct (Z.to_nat attempts) as [|n] eqn:Hn; [lia|].
    rewrite Retry_loop_S, Hd. reflexivity.
  - intros Hatt Hd e He Hwake. unfold Retry.
    destruct (Z.to_nat attempts) as [|n] eqn:Hn; [lia|].
    rewrite Retry_loop_S, Hd.
    destruct (fn w) as [r w1]. cbn [fst snd] in *. subst r.
    rewrite wrap64_small by (unfold in_int64, minInt64, maxInt64 in *; lia).
    replace (0 =? attempts - 1) with false by (symmetry; apply Z.eqb_neq; lia).
    destruct (await ctx d w1) as [wk w2]. cbn [fst snd] in *. subst wk.
    reflexivity.
  - intros k delay wk tr Hmax Hk Hrounds.
    assert (Hint : in_int64 attempts)
      by (unfold in_int64, minInt64, maxInt64 in *; lia).
    split; [exact (calls_of_failed_rounds ctx fn _ _ _ _ _ _ Hrounds)|].
    assert (Hsplit : Z.to_nat attempts
                     = (k + S (Z.to_nat attempts - k - 1))%nat) by lia.
    pose proof (Retry_loop_after_rounds ctx attempts fn Hint k
                  (Z.to_nat attempts - k - 1) 0 d None w delay wk tr
                  ltac:(lia) ltac:(lia) Hrounds) as Hrun.
    rewrite <- Hsplit in Hrun. fold (Retry ctx attempts d fn w) in Hrun.
    rewrite Retry_loop_S in Hrun. rewrite Z.add_0_l in Hrun.
    split.
    + intros Hd. rewrite Hd in Hrun. cbn [result world trace] in Hrun.
      split; [exact Hrun | exact (Err_after_Done ctx wk Hd)].
    + intros Hd e He Hlast Hwake. rewrite Hd in Hrun.
      pose proof (await_CtxFired ctx delay (snd (fn wk)) Hwake) as Hdone.
      destruct (fn wk) as [r w1]. cbn [fst snd] in *. subst r.
      rewrite wrap64_small in Hrun
        by (unfold in_int64, minInt64, maxInt64 in *; lia).
      replace (Z.of_nat k =? attempts - 1) with false in Hrun
        by (symmetry; apply Z.eqb_neq; lia).
      destruct (await ctx delay w1) as [wake w2]. cbn [fst snd] in *.
      subst wake. cbn [result world trace] in Hrun.
      split; [exact Hrun | exact (Err_after_Done ctx w2 Hdone)].
Qed.

Lemma Retry_cancellation_precedence_witness :
  (In EvCancelled
      (trace (Retry Demo.WithCancel 3 (Demo.ms 10) Demo.fail_and_cancel
                    (Demo.at_time 0))) /\
   result (Retry Demo.WithCancel 3 (Demo.ms 10) Demo.fail_and_cancel
                 (Demo.at_time 0)) = Some context_Canceled /\
   calls_of (trace (Retry Demo.WithCancel 3 (Demo.ms 10) Demo.fail_and_cancel
                          (Demo.at_time 0))) = [Some Demo.errTest]) /\
  Retry Demo.WithCancel 3 (Demo.ms 10) Demo.fail
        (Demo.cancel (Demo.at_time 0))
  = Build_Outcome (Some context_Canceled) (Demo.cancel (Demo.at_time 0))
                  [EvCancelled] /\
  (failed_rounds Demo.WithCancel (Demo.fail_cancel_at 1) 1 (Demo.ms 10)
                 (Demo.at_time 0)
   = Some (Demo.ms 20,
           Demo.sleep (Demo.ms 10) (Demo.invoked (Demo.at_time 0)),
           [EvCall (Some Demo.errTest); EvWait (Demo.ms 10)]) /\
   result (Retry Demo.WithCancel 5 (Demo.ms 10) (Demo.fail_cancel_at 1)
                 (Demo.at_time 0)) = Some context_Canceled /\
   trace (Retry Demo.WithCancel 5 (Demo.ms 10) (Demo.fail_cancel_at 1)
                (Demo.at_time 0))
   = [EvCall (Some Demo.errTest); EvWait (Demo.ms 10)]
       ++ [EvCall (Some Demo.errTest); EvCancelled]) /\
  (failed_rounds (Demo.WithDeadline (Demo.ms 10)) Demo.fail 1 (Demo.ms 10)
                 (Demo.at_time 0)
   = Some (Demo.ms 20,
           Demo.sleep (Demo.ms 10) (Demo.invoked (Demo.at_time 0)),
           [EvCall (Some Demo.errTest); EvWait (Demo.ms 10)]) /\
   result (Retry (Demo.WithDeadline (Demo.ms 10)) 5 (Demo.ms 10) Demo.fail
                 (Demo.at_time 0)) = Some context_DeadlineExceeded /\
   trace (Retry (Demo.WithDeadline (Demo.ms 10)) 5 (Demo.ms 10) Demo.fail
                (Demo.at_time 0))
   = [EvCall (Some Demo.errTest); EvWait (Demo.ms 10)] ++ [EvCancelled]).
Proof.
  assert (Hin : In EvCancelled
                   (trace (Retry Demo.WithCancel 3 (Demo.ms 10)
                                 Demo.fail_and_cancel (Demo.at_time 0))))
    by (simpl; right; left; reflexivity).
  destruct (Retry_cancellation_precedence Demo.WithCancel 3 (Demo.ms 10)
              Demo.fail_and_cancel (Demo.at_time 0)) as (Hobs & _ & _ & _).
  destruct (Hobs Hin) as (Hr & _ & _).
  destruct (Retry_cancellation_precedence Demo.WithCancel 3 (Demo.ms 10)
              Demo.fail (Demo.cancel (Demo.at_time 0))) as (_ & Hentry & _ & _).
  specialize (Hentry ltac:(lia) eq_refl).
  (* a wait cut short during the second iteration *)
  assert (Hmax : 5 <= maxInt64) by (unfold maxInt64; lia).
  assert (Hr1 : failed_rounds Demo.WithCancel (Demo.fail_cancel_at 1) 1
                              (Demo.ms 10) (Demo.at_time 0)
                = Some (Demo.ms 20,
                        Demo.sleep (Demo.ms 10) (Demo.invoked (Demo.at_time 0)),
                        [EvCall (Some Demo.errTest); EvWait (Demo.ms 10)]))
    by reflexivity.
  destruct (Retry_cancellation_precedence Demo.WithCancel 5 (Demo.ms 10)
              (Demo.fail_cancel_at 1) (Demo.at_time 0)) as (_ & _ & _ & Hlater).
  destruct (Hlater 1%nat _ _ _ Hmax ltac:(simpl; lia) Hr1) as (_ & _ & Hwait).
  destruct (Hwait eq_refl Demo.errTest eq_refl ltac:(simpl; lia) eq_refl)
    as [Hrun1 _].
  (* a context found done at the check that opens the second iteration *)
  assert (Hr2 : failed_rounds (Demo.WithDeadline (Demo.ms 10)) Demo.fail 1
                              (Demo.ms 10) (Demo.at_time 0)
                = Some (Demo.ms 20,
                        Demo.sleep (Demo.ms 10) (Demo.invoked (Demo.at_time 0)),
                        [EvCall (Some Demo.errTest); EvWait (Demo.ms 10)]))
    by reflexivity.
  destruct (Retry_cancellation_precedence (Demo.WithDeadline (Demo.ms 10)) 5
              (Demo.ms 10) Demo.fail (Demo.at_time 0)) as (_ & _ & _ & Hlater2).
  destruct (Hlater2 1%nat _ _ _ Hmax ltac:(simpl; lia) Hr2) as (_ & Hcheck & _).
  destruct (Hcheck eq_refl) as [Hrun2 _].
  refine (conj (conj Hin (conj Hr eq_refl))
               (conj Hentry
                     (conj (conj Hr1 (conj _ _)) (conj Hr2 (conj _ _))))).
  - rewrite Hrun1. reflexivity.
  - rewrite Hrun1. reflexivity.
  - rewrite Hrun2. reflexivity.
  - rewrite Hrun2. reflexivity.
Defined.

(** *** Backoff *)

Lemma calls_of_schedule (rs : list (option error)) :
  forall d, calls_of (schedule d rs) = rs.
Proof.
  induction rs as [|r rs IH]; intros d; [reflexivity|].
  destruct rs as [|r' rs]; [reflexivity|].
  change (calls_of (schedule d (r :: r' :: rs)))
    with (r :: calls_of (schedule (d * 2) (r' :: rs))).
  rewrite IH. reflexivity.
Qed.



Section RetryBackoff.
Context {W : Type}.
Variable ctx : Ctx W.
Variable attempts : Z.
Variable fn : WorkFunc W.
Hypothesis attempts_int : in_int64 attempts.

End RetryBackoff.




(** ** CircuitBreaker *)

Section BreakerFacts.
Context {W : Type} `{Clock W}.

(** An admitted call runs the work function once and returns what it
    returned; the bookkeeping is [onSuccess] or [onFailure] on the
    breaker left by the gate. *)
Lemma Execute_passed (fn : WorkFunc W) (cb cb1 : CircuitBreaker) (w : W) :
  Execute_gate cb w = Some cb1 ->
  returned (Execute fn cb w) = fst (fn w) /\
  world_after (Execute fn cb w) = snd (fn w) /\
  log (Execute fn cb w) = [EvCall (fst (fn w))] /\
  breaker (Execute fn cb w)
  = match fst (fn w) with
    | None => snd (onSuccess cb1)
    | Some _ => snd (onFailure cb1 (snd (fn w)))
    end.
Proof.
  intros Hg. unfold Execute. rewrite Hg.
  destruct (fn w) as [[e|] w1]; cbn [fst snd].
  - destruct (onFailure cb1 w1) as [r cb2]. repeat split.
  - unfold onSuccess.
    destruct (state cb1); try (repeat split; fail).
    destruct (_ >=? _); repeat split.
Qed.

Lemma Execute_gate_not_Open (cb : CircuitBreaker) (w : W) :
  state cb <> Open -> Execute_gate cb w = Some cb.
Proof.
  unfold Execute_gate. destruct (state cb); congruence.
Qed.

Lemma Execute_gate_elapsed (cb : CircuitBreaker) (w : W) :
  state cb = Open ->
  time_Since w (lastFailureTime cb) > openTimeout cb ->
  Execute_gate cb w = Some (set_successCount 0 (set_state HalfOpen cb)).
Proof.
  intros Hs Ht. unfold Execute_gate. rewrite Hs.
  replace (time_Since w (lastFailureTime cb) >? openTimeout cb) with true
    by (symmetry; apply Z.gtb_lt; lia).
  reflexivity.
Qed.

(** A call on an open breaker whose cooldown has elapsed is the same
    call on the half-open breaker the gate turns it into. *)
Lemma Execute_trial (fn : WorkFunc W) (cb : CircuitBreaker) (w : W) :
  state cb = Open ->
  time_Since w (lastFailureTime cb) > openTimeout cb ->
  Execute fn cb w
  = Execute fn (set_successCount 0 (set_state HalfOpen cb)) w.
Proof.
  intros Hs Ht. unfold Execute at 1 2.
  rewrite (Execute_gate_elapsed cb w Hs Ht).
  rewrite Execute_gate_not_Open by (simpl; discriminate).
  reflexivity.
Qed.

Lemma Execute_all_app (xs ys : list (WorkFunc W * W)) :
  forall cb,
    Execute_all (xs ++ ys) cb
    = (fst (Execute_all xs cb) ++ fst (Execute_all ys (snd (Execute_all xs cb))),
       snd (Execute_all ys (snd (Execute_all xs cb)))).
Proof.
  induction xs as [|[fn w] xs IH]; intros cb.
  - simpl. destruct (Execute_all ys cb); reflexivity.
  - cbn [app Execute_all]. rewrite IH.
    destruct (Execute_all xs (breaker (Execute fn cb w))) as [rs cb2].
    reflexivity.
Qed.

(** Failures on a closed breaker are counted until the count reaches
    the threshold, which opens it. *)
Lemma Execute_all_failures (calls : list (WorkFunc W * W)) :
  forall cb,
    state cb = Closed ->
    Forall call_fails calls ->
    0 <= failureCount cb ->
    failureCount cb + Z.of_nat (length calls) <= failureThreshold cb ->
    failureThreshold cb <= maxInt64 ->
    (failureCount cb + Z.of_nat (length calls) < failureThreshold cb ->
     state (snd (Execute_all calls cb)) = Closed /\
     failureCount (snd (Execute_all calls cb))
     = failureCount cb + Z.of_nat (length calls)) /\
    (failureCount cb + Z.of_nat (length calls) = failureThreshold cb ->
     calls <> [] ->
     state (snd (Execute_all calls cb)) = Open).
Proof.
  induction calls as [|[fn w] rest IH]; intros cb Hs Hall Hc Hle Hmax.
  - simpl. split; [intros _; split; [assumption | lia] | congruence].
  - inversion Hall as [|c l Hf Hrest]; subst. unfold call_fails in Hf.
    cbn [fst snd] in Hf. cbn [length] in Hle |- *.
    rewrite Nat2Z.inj_succ in *.
    cbn [Execute_all].
    destruct (Execute_passed fn cb cb w) as (_ & _ & _ & Hb).
    { apply Execute_gate_not_Open. congruence. }
    destruct (fst (fn w)) as [e|] eqn:He; [|congruence].
    unfold onFailure in Hb. rewrite Hs in Hb.
    cbn [failureCount failureThreshold set_failureCount] in Hb.
    rewrite wrap64_small in Hb
      by (unfold in_int64, minInt64, maxInt64 in *; lia).
    destruct (failureCount cb + 1 >=? failureThreshold cb) eqn:Hge;
      cbn [snd] in Hb.
    + apply Z.geb_le in Hge.
      assert (rest = []) by (destruct rest; [reflexivity | simpl in Hle; lia]).
      subst rest. cbn [Execute_all snd]. rewrite Hb. simpl in *.
      split; [lia | reflexivity].
    + assert (Hlt : failureCount cb + 1 < failureThreshold cb).
      { destruct (Z.geb_spec (failureCount cb + 1) (failureThreshold cb));
          [discriminate | lia]. }
      specialize (IH (breaker (Execute fn cb w))).
      rewrite Hb in IH |- *. cbn [state failureCount failureThreshold
                                   set_failureCount] in IH.
      specialize (IH Hs Hrest ltac:(lia) ltac:(lia) Hmax).
      destruct (Execute_all rest _) as [rs cb2]. cbn [snd] in *.
      destruct IH as [IH1 IH2].
      split.
      * intros Hlt2. destruct (IH1 ltac:(lia)) as [Hst Hcnt].
        split; [assumption | lia].
      * intros Heq _. apply IH2; [lia|].
        destruct rest; [simpl in Heq; lia | discriminate].
Qed.

(** Successes on a half-open breaker are counted until the count
    reaches the threshold, which closes it with [failureCount] 0;
    every one of these calls returns nil. *)
Lemma Execute_all_successes (calls : list (WorkFunc W * W)) :
  forall cb,
    state cb = HalfOpen ->
    Forall call_succeeds calls ->
    0 <= successCount cb ->
    successCount cb + Z.of_nat (length calls) <= successThreshold cb ->
    successThreshold cb <= maxInt64 ->
    Forall (fun r => r = None) (fst (Execute_all calls cb)) /\
    (successCount cb + Z.of_nat (length calls) < successThreshold cb ->
     state (snd (Execute_all calls cb)) = HalfOpen /\
     successCount (snd (Execute_all calls cb))
     = successCount cb + Z.of_nat (length calls)) /\
    (successCount cb + Z.of_nat (length calls) = successThreshold cb ->
     calls <> [] ->
     state (snd (Execute_all calls cb)) = Closed /\
     failureCount (snd (Execute_all calls cb)) = 0).
Proof.
  induction calls as [|[fn w] rest IH]; intros cb Hs Hall Hc Hle Hmax.
  - simpl. split; [constructor|].
    split; [intros _; split; [assumption | lia] | congruence].
  - inversion Hall as [|c l Hf Hrest]; subst. unfold call_succeeds in Hf.
    cbn [fst snd] in Hf. cbn [length] in Hle |- *.
    rewrite Nat2Z.inj_succ in *.
    cbn [Execute_all].
    destruct (Execute_passed fn cb cb w) as (Hr & _ & _ & Hb).
    { apply Execute_gate_not_Open. congruence. }
    rewrite Hf in Hb, Hr.
    unfold onSuccess in Hb. rewrite Hs in Hb.
    cbn [successCount successThreshold set_successCount] in Hb.
    rewrite wrap64_small in Hb
      by (unfold in_int64, minInt64, maxInt64 in *; lia).
    destruct (successCount cb + 1 >=? successThreshold cb) eqn:Hge;
      cbn [snd] in Hb.
    + apply Z.geb_le in Hge.
      assert (rest = []) by (destruct rest; [reflexivity | simpl in Hle; lia]).
      subst rest. cbn [Execute_all fst snd]. rewrite Hb, Hr. simpl in *.
      split; [repeat constructor|].
      split; [lia | intros _ _; split; reflexivity].
    + assert (Hlt : successCount cb + 1 < successThreshold cb).
      { destruct (Z.geb_spec (successCount cb + 1) (successThreshold cb));
          [discriminate | lia]. }
      specialize (IH (breaker (Execute fn cb w))).
      rewrite Hb in IH |- *. rewrite Hr.
      cbn [state successCount successThreshold set_successCount] in IH.
      specialize (IH Hs Hrest ltac:(lia) ltac:(lia) Hmax).
      destruct (Execute_all rest _) as [rs cb2]. cbn [fst snd] in *.
      destruct IH as (IH0 & IH1 & IH2).
      split; [constructor; [reflexivity | assumption]|].
      split.
      * intros Hlt2. destruct (IH1 ltac:(lia)) as [Hst Hcnt].
        split; [assumption | lia].
      * intros Heq _. apply IH2; [lia|].
        destruct rest; [simpl in Heq; lia | discriminate].
Qed.
End BreakerFacts.

(** C3: a call made while the breaker is [Open] and the time since
    [lastFailureTime] is not greater than [openTimeout] returns
    [ErrCircuitOpen] without invoking the work function, and leaves
    every field of the breaker (and the world) as it was. *)
Theorem Execute_rejected_while_open {W : Type} `{Clock W}
        (fn : WorkFunc W) (cb : CircuitBreaker) (w : W) :
  state cb = Open ->
  time_Since w (lastFailureTime cb) <= openTimeout cb ->
  Execute fn cb w = Build_Executed (Some ErrCircuitOpen) cb w [] /\
  calls_of (log (Execute fn cb w)) = [] /\
  state (breaker (Execute fn cb w)) = state cb /\
  failureCount (breaker (Execute fn cb w)) = failureCount cb /\
  successCount (breaker (Execute fn cb w)) = successCount cb /\
  lastFailureTime (breaker (Execute fn cb w)) = lastFailureTime cb.
Proof.
  intros Hs Ht.
  assert (HE : Execute fn cb w = Build_Executed (Some ErrCircuitOpen) cb w []).
  { unfold Execute, Execute_gate. rewrite Hs.
    replace (time_Since w (lastFailureTime cb) >? openTimeout cb) with false
      by (symmetry; rewrite Z.gtb_ltb; apply Z.ltb_ge; lia).
    reflexivity. }
  rewrite HE. repeat split.
Qed.

(** C10: a breaker from [NewCircuitBreaker] is [Closed] with both counts
    0, and its first [Execute] call is admitted whatever the arguments
    of the constructor: the work function is invoked once and the call
    returns what the work function returned. *)
Theorem NewCircuitBreaker_first_call {W : Type} `{Clock W}
        (F S : Z) (T : Duration) (fn : WorkFunc W) (w : W) :
  state (NewCircuitBreaker F S T) = Closed /\
  failureCount (NewCircuitBreaker F S T) = 0 /\
  successCount (NewCircuitBreaker F S T) = 0 /\
  Execute_gate (NewCircuitBreaker F S T) w = Some (NewCircuitBreaker F S T) /\
  log (Execute fn (NewCircuitBreaker F S T) w) = [EvCall (fst (fn w))] /\
  returned (Execute fn (NewCircuitBreaker F S T) w) = fst (fn w).
Proof.
  assert (Hg : Execute_gate (NewCircuitBreaker F S T) w
               = Some (NewCircuitBreaker F S T)) by reflexivity.
  destruct (Execute_passed fn _ _ w Hg) as (Hr & _ & Hl & _).
  repeat split; assumption.
Qed.

Lemma Execute_rejected_while_open_witness :
  state (Demo.tripped (Demo.ms 10)) = Open /\
  time_Since (Demo.at_time (Demo.ms 110)) (lastFailureTime (Demo.tripped (Demo.ms 10)))
  <= openTimeout (Demo.tripped (Demo.ms 10)) /\
  Execute Demo.succeed (Demo.tripped (Demo.ms 10)) (Demo.at_time (Demo.ms 110))
  = Build_Executed (Some ErrCircuitOpen) (Demo.tripped (Demo.ms 10))
                   (Demo.at_time (Demo.ms 110)) [].
Proof.
  assert (H1 : state (Demo.tripped (Demo.ms 10)) = Open) by reflexivity.
  assert (H2 : time_Since (Demo.at_time (Demo.ms 110))
                          (lastFailureTime (Demo.tripped (Demo.ms 10)))
               <= openTimeout (Demo.tripped (Demo.ms 10)))
    by (vm_compute; discriminate).
  destruct (Execute_rejected_while_open Demo.succeed (Demo.tripped (Demo.ms 10))
              (Demo.at_time (Demo.ms 110)) H1 H2) as (HE & _).
  exact (conj H1 (conj H2 HE)).
Defined.

(** C8, as it holds: after a failing admitted call that leaves the
    breaker [Open] (the failure of a call made while [HalfOpen] or
    admitted as the trial of an open breaker, or a failure while
    [Closed] that brings [failureCount] up to [failureThreshold]),
    [lastFailureTime] is the instant read by [time.Now()] when that
    failure is recorded; a failure while [Closed] that stays below
    [failureThreshold] leaves the breaker [Closed] and [lastFailureTime]
    as it was. *)
Theorem lastFailureTime_after_failure {W : Type} `{Clock W}
        (fn : WorkFunc W) (cb cb1 : CircuitBreaker) (w : W) :
  Execute_gate cb w = Some cb1 ->
  fst (fn w) <> None ->
  (state (breaker (Execute fn cb w)) = Open ->
   lastFailureTime (breaker (Execute fn cb w)) = time_Now (snd (fn w))) /\
  (state cb <> Closed -> state (breaker (Execute fn cb w)) = Open) /\
  (state cb = Closed ->
   wrap64 (failureCount cb + 1) >= failureThreshold cb ->
   state (breaker (Execute fn cb w)) = Open) /\
  (state cb = Closed ->
   wrap64 (failureCount cb + 1) < failureThreshold cb ->
   state (breaker (Execute fn cb w)) = Closed /\
   lastFailureTime (breaker (Execute fn cb w)) = lastFailureTime cb).
Proof.
  intros Hg Hf.
  destruct (Execute_passed fn cb cb1 w Hg) as (_ & _ & _ & Hb).
  destruct (fst (fn w)) as [e|]; [clear Hf | congruence].
  rewrite Hb. clear Hb.
  unfold Execute_gate in Hg. unfold onFailure.
  destruct (state cb) eqn:Hs.
  - injection Hg as <-. rewrite Hs.
    cbn [failureCount failureThreshold set_failureCount].
    destruct (Z.geb_spec (wrap64 (failureCount cb + 1)) (failureThreshold cb));
      cbn [snd state lastFailureTime set_lastFailureTime set_state
               set_failureCount];
      repeat split; intros; try reflexivity; try congruence; try lia.
  - destruct (_ >? _); [|discriminate]. injection Hg as <-.
    cbn [snd state lastFailureTime set_lastFailureTime set_state
             set_successCount].
    repeat split; intros; try reflexivity; congruence.
  - injection Hg as <-. rewrite Hs.
    cbn [snd state lastFailureTime set_lastFailureTime set_state].
    repeat split; intros; try reflexivity; congruence.
Qed.

Lemma lastFailureTime_after_failure_witness :
  Execute_gate (NewCircuitBreaker 1 2 (Demo.ms 100)) (Demo.at_time 5)
  = Some (NewCircuitBreaker 1 2 (Demo.ms 100)) /\
  fst (Demo.fail (Demo.at_time 5)) <> None /\
  lastFailureTime
    (breaker (Execute Demo.fail (NewCircuitBreaker 1 2 (Demo.ms 100))
                      (Demo.at_time 5))) = 5.
Proof.
  assert (H1 : Execute_gate (NewCircuitBreaker 1 2 (Demo.ms 100)) (Demo.at_time 5)
               = Some (NewCircuitBreaker 1 2 (Demo.ms 100))) by reflexivity.
  assert (H2 : fst (Demo.fail (Demo.at_time 5)) <> None) by discriminate.
  destruct (lastFailureTime_after_failure Demo.fail _ _ (Demo.at_time 5) H1 H2)
    as (Hopen & _).
  exact (conj H1 (conj H2 (Hopen eq_refl))).
Defined.

(** C8, as the claim states it, fails: the first failure of a breaker
    made by [NewCircuitBreaker(2, 2, 100ms)], recorded at instant 5,
    leaves [lastFailureTime] at the zero [Time]. *)
Lemma lastFailureTime_kept_below_threshold :
  lastFailureTime
    (breaker (Execute Demo.fail (NewCircuitBreaker 2 2 (Demo.ms 100))
                      (Demo.at_time 5))) = zeroTime /\
  time_Now (world_after (Execute Demo.fail (NewCircuitBreaker 2 2 (Demo.ms 100))
                                 (Demo.at_time 5))) = 5 /\
  ~ (forall (W : Type) (C : Clock W) (fn : WorkFunc W) (cb : CircuitBreaker)
            (w : W),
        Execute_gate cb w <> None ->
        fst (fn w) <> None ->
        lastFailureTime (breaker (Execute fn cb w))
        = time_Now (world_after (Execute fn cb w))).
Proof.
  split; [reflexivity|]. split; [reflexivity|].
  intros Hclaim.
  specialize (Hclaim Demo.World Demo.World_Clock Demo.fail
                     (NewCircuitBreaker 2 2 (Demo.ms 100)) (Demo.at_time 5)).
  assert (Hbad : zeroTime = 5).
  { apply Hclaim; discriminate. }
  discriminate Hbad.
Qed.

(** C2: for a breaker with [failureThreshold = F], [F] positive, that is
    [Closed] with [failureCount = 0]: fewer than [F] consecutive failing
    calls leave it [Closed] and counted, exactly [F] of them open it,
    and [F-1] of them followed by one succeeding call leave it [Closed]
    with [failureCount] back to 0. *)
Theorem breaker_trip_threshold {W : Type} `{Clock W}
        (F : Z) (cb : CircuitBreaker) (calls : list (WorkFunc W * W)) :
  1 <= F <= maxInt64 ->
  failureThreshold cb = F ->
  state cb = Closed ->
  failureCount cb = 0 ->
  Forall call_fails calls ->
  (Z.of_nat (length calls) < F ->
   state (snd (Execute_all calls cb)) = Closed /\
   failureCount (snd (Execute_all calls cb)) = Z.of_nat (length calls)) /\
  (Z.of_nat (length calls) = F ->
   state (snd (Execute_all calls cb)) = Open) /\
  (Z.of_nat (length calls) = F - 1 ->
   forall c, call_succeeds c ->
   state (snd (Execute_all (calls ++ [c]) cb)) = Closed /\
   failureCount (snd (Execute_all (calls ++ [c]) cb)) = 0).
Proof.
  intros HF Hthr Hs Hc Hall.
  assert (Hbelow : Z.of_nat (length calls) < F ->
                   state (snd (Execute_all calls cb)) = Closed /\
                   failureCount (snd (Execute_all calls cb))
                   = Z.of_nat (length calls)).
  { intros Hlt.
    destruct (Execute_all_failures calls cb Hs Hall ltac:(lia) ltac:(lia)
                                   ltac:(lia)) as [H1 _].
    destruct (H1 ltac:(lia)) as [Hst Hcnt]. split; [assumption | lia]. }
  split; [exact Hbelow|]. split.
  - intros Heq.
    destruct (Execute_all_failures calls cb Hs Hall ltac:(lia) ltac:(lia)
                                   ltac:(lia)) as [_ H2].
    apply H2; [lia|]. intros ->. simpl in Heq. lia.
  - intros Heq [fn w] Hok. unfold call_succeeds in Hok. cbn [fst snd] in Hok.
    destruct (Hbelow ltac:(lia)) as [Hst _].
    rewrite Execute_all_app. cbn [snd Execute_all].
    assert (Hgate : Execute_gate (snd (Execute_all calls cb)) w
                    = Some (snd (Execute_all calls cb)))
      by (apply Execute_gate_not_Open; congruence).
    destruct (Execute_passed fn _ _ w Hgate) as (_ & _ & _ & Hb).
    rewrite Hok in Hb. unfold onSuccess in Hb. rewrite Hst in Hb.
    rewrite Hb. cbn [snd state failureCount set_failureCount].
    split; [exact Hst | reflexivity].
Qed.

Lemma breaker_trip_threshold_witness :
  1 <= 3 <= maxInt64 /\
  Forall call_fails [(Demo.fail, Demo.at_time 1); (Demo.fail, Demo.at_time 2);
                     (Demo.fail, Demo.at_time 3)] /\
  state (snd (Execute_all [(Demo.fail, Demo.at_time 1);
                           (Demo.fail, Demo.at_time 2);
                           (Demo.fail, Demo.at_time 3)]
                          (NewCircuitBreaker 3 1 (Demo.ms 60000)))) = Open /\
  Forall call_fails [(Demo.fail, Demo.at_time 1); (Demo.fail, Demo.at_time 2)] /\
  failureCount
    (snd (Execute_all ([(Demo.fail, Demo.at_time 1); (Demo.fail, Demo.at_time 2)]
                         ++ [(Demo.succeed, Demo.at_time 3)])
                      (NewCircuitBreaker 3 1 (Demo.ms 60000)))) = 0.
Proof.
  assert (H1 : 1 <= 3 <= maxInt64) by (unfold maxInt64; lia).
  assert (H3 : Forall call_fails [(Demo.fail, Demo.at_time 1);
                                  (Demo.fail, Demo.at_time 2);
                                  (Demo.fail, Demo.at_time 3)])
    by (repeat constructor; discriminate).
  assert (H2 : Forall call_fails [(Demo.fail, Demo.at_time 1);
                                  (Demo.fail, Demo.at_time 2)])
    by (repeat constructor; discriminate).
  destruct (breaker_trip_threshold 3 (NewCircuitBreaker 3 1 (Demo.ms 60000)) _
              H1 eq_refl eq_refl eq_refl H3) as (_ & Hopen & _).
  destruct (breaker_trip_threshold 3 (NewCircuitBreaker 3 1 (Demo.ms 60000)) _
              H1 eq_refl eq_refl eq_refl H2) as (_ & _ & Hreset).
  destruct (Hreset eq_refl (Demo.succeed, Demo.at_time 3) eq_refl) as [_ Hzero].
  exact (conj H1 (conj H3 (conj (Hopen eq_refl) (conj H2 Hzero)))).
Defined.

(** C1: for a breaker that is [Open], a call arriving when more than
    [openTimeout] has elapsed since [lastFailureTime] is admitted: the
    gate makes the breaker [HalfOpen] with [successCount] 0 and the work
    function is invoked.  If that call fails, the breaker is [Open]
    again and [lastFailureTime] is the instant of that failure.  If
    instead it and the calls after it succeed, the breaker stays
    [HalfOpen], counting them, until [successThreshold] of them have
    succeeded, which makes it [Closed] with [failureCount] 0; all of
    these calls return nil. *)
Theorem breaker_half_open_trial {W : Type} `{Clock W}
        (fn : WorkFunc W) (cb : CircuitBreaker) (w : W) :
  state cb = Open ->
  time_Since w (lastFailureTime cb) > openTimeout cb ->
  (Execute_gate cb w = Some (set_successCount 0 (set_state HalfOpen cb)) /\
   log (Execute fn cb w) = [EvCall (fst (fn w))] /\
   returned (Execute fn cb w) = fst (fn w)) /\
  (fst (fn w) <> None ->
   state (breaker (Execute fn cb w)) = Open /\
   lastFailureTime (breaker (Execute fn cb w)) = time_Now (snd (fn w))) /\
  (1 <= successThreshold cb <= maxInt64 ->
   forall rest : list (WorkFunc W * W),
     Forall call_succeeds ((fn, w) :: rest) ->
     Z.of_nat (length ((fn, w) :: rest)) <= successThreshold cb ->
     Forall (fun r => r = None) (fst (Execute_all ((fn, w) :: rest) cb)) /\
     (Z.of_nat (length ((fn, w) :: rest)) < successThreshold cb ->
      state (snd (Execute_all ((fn, w) :: rest) cb)) = HalfOpen /\
      successCount (snd (Execute_all ((fn, w) :: rest) cb))
      = Z.of_nat (length ((fn, w) :: rest))) /\
     (Z.of_nat (length ((fn, w) :: rest)) = successThreshold cb ->
      state (snd (Execute_all ((fn, w) :: rest) cb)) = Closed /\
      failureCount (snd (Execute_all ((fn, w) :: rest) cb)) = 0)).
Proof.
  intros Hs Ht.
  pose proof (Execute_gate_elapsed cb w Hs Ht) as Hg.
  destruct (Execute_passed fn cb _ w Hg) as (Hr & _ & Hl & Hb).
  split; [repeat split; assumption|]. split.
  - intros Hf. rewrite Hb.
    destruct (fst (fn w)) as [e|]; [|congruence].
    split; reflexivity.
  - intros HS rest Hall Hlen.
    assert (HE : Execute_all ((fn, w) :: rest) cb
                 = Execute_all ((fn, w) :: rest)
                               (set_successCount 0 (set_state HalfOpen cb))).
    { cbn [Execute_all]. rewrite (Execute_trial fn cb w Hs Ht). reflexivity. }
    rewrite HE.
    destruct (Execute_all_successes ((fn, w) :: rest)
                (set_successCount 0 (set_state HalfOpen cb))
                eq_refl Hall) as (Hnil & Hhalf & Hclosed).
    + simpl. lia.
    + cbn [successCount successThreshold set_successCount set_state]. lia.
    + apply HS.
    + cbn [successCount successThreshold set_successCount set_state] in *.
      split; [exact Hnil|]. split.
      * intros Hlt. destruct (Hhalf ltac:(lia)) as [Hst Hcnt].
        split; [assumption | lia].
      * intros Heq. apply Hclosed; [lia | discriminate].
Qed.

Lemma breaker_half_open_trial_witness :
  state (Demo.tripped (Demo.ms 10)) = Open /\
  time_Since (Demo.at_time (Demo.ms 120))
             (lastFailureTime (Demo.tripped (Demo.ms 10)))
  > openTimeout (Demo.tripped (Demo.ms 10)) /\
  (state (breaker (Execute Demo.fail (Demo.tripped (Demo.ms 10))
                           (Demo.at_time (Demo.ms 120)))) = Open /\
   lastFailureTime (breaker (Execute Demo.fail (Demo.tripped (Demo.ms 10))
                                     (Demo.at_time (Demo.ms 120))))
   = Demo.ms 120) /\
  (state (snd (Execute_all [(Demo.succeed, Demo.at_time (Demo.ms 120));
                            (Demo.succeed, Demo.at_time (Demo.ms 130))]
                           (Demo.tripped (Demo.ms 10)))) = Closed /\
   failureCount (snd (Execute_all [(Demo.succeed, Demo.at_time (Demo.ms 120));
                                   (Demo.succeed, Demo.at_time (Demo.ms 130))]
                                  (Demo.tripped (Demo.ms 10)))) = 0).
Proof.
  assert (H1 : state (Demo.tripped (Demo.ms 10)) = Open) by reflexivity.
  assert (H2 : time_Since (Demo.at_time (Demo.ms 120))
                          (lastFailureTime (Demo.tripped (Demo.ms 10)))
               > openTimeout (Demo.tripped (Demo.ms 10))) by reflexivity.
  destruct (breaker_half_open_trial Demo.fail (Demo.tripped (Demo.ms 10))
              (Demo.at_time (Demo.ms 120)) H1 H2) as (_ & Hfail & _).
  destruct (breaker_half_open_trial Demo.succeed (Demo.tripped (Demo.ms 10))
              (Demo.at_time (Demo.ms 120)) H1 H2) as (_ & _ & Hok).
  assert (H3 : 1 <= successThreshold (Demo.tripped (Demo.ms 10)) <= maxInt64)
    by (unfold maxInt64; simpl; lia).
  assert (H4 : Forall call_succeeds
                      [(Demo.succeed, Demo.at_time (Demo.ms 120));
                       (Demo.succeed, Demo.at_time (Demo.ms 130))])
    by (repeat constructor).
  destruct (Hok H3 [(Demo.succeed, Demo.at_time (Demo.ms 130))] H4
                ltac:(simpl; lia)) as (_ & _ & Hclosed).
  exact (conj H1 (conj H2 (conj (Hfail ltac:(discriminate))
                                (Hclosed eq_refl)))).
Defined.

(** ** The package's tests, run on the embedding *)

(** [TestRetry_SuccessAfterFailures]: two failures, then success, with
    five attempts allowed. *)
Example TestRetry_SuccessAfterFailures :
  let o := Retry Demo.Background 5 (Demo.ms 10) (Demo.fail_first 2)
                 (Demo.at_time 0) in
  result o = None /\ Demo.invocations (world o) = 3%nat /\
  waits_of (trace o) = [Demo.ms 10; Demo.ms 20].
Proof. repeat split. Qed.

(** [TestCircuitBreaker_Flow], with the breaker after each step. *)
Example TestCircuitBreaker_Flow :
  let cb0 := NewCircuitBreaker 2 2 (Demo.ms 100) in
  let cb1 := breaker (Execute Demo.succeed cb0 (Demo.at_time 0)) in
  let cb2 := breaker (Execute Demo.fail cb1 (Demo.at_time (Demo.ms 1))) in
  let cb3 := breaker (Execute Demo.fail cb2 (Demo.at_time (Demo.ms 2))) in
  let cb4 := breaker (Execute Demo.fail cb3 (Demo.at_time (Demo.ms 112))) in
  let cb5 := breaker (Execute Demo.succeed cb4 (Demo.at_time (Demo.ms 222))) in
  let cb6 := breaker (Execute Demo.succeed cb5 (Demo.at_time (Demo.ms 223))) in
  state cb1 = Closed /\
  (state cb2 = Closed /\ failureCount cb2 = 1) /\
  cb3 = Demo.tripped (Demo.ms 2) /\
  (state cb4 = Open /\ lastFailureTime cb4 = Demo.ms 112) /\
  (state cb5 = HalfOpen /\ successCount cb5 = 1) /\
  (state cb6 = Closed /\ failureCount cb6 = 0).
Proof. repeat split. Qed.


(** * Further properties of [Retry] *)

Lemma last_cons_default {A : Type} (x : A) (l : list A) (d : A) :
  last (x :: l) d = last l x.
Proof.
  revert x d. induction l as [|y l IH]; intros x d; [reflexivity|].
  change (last (x :: y :: l) d) with (last (y :: l) d).
  rewrite (IH y d), (IH y x). reflexivity.
Qed.

Section RetryRuns.
Context {W : Type}.
Variable ctx : Ctx W.
Variable attempts : Z.
Variable fn : WorkFunc W.

(** Whatever the context and the work function do, an iteration invokes
    the work function at most once, and only the last invocation of a
    run can have succeeded. *)
Lemma Retry_loop_calls :
  forall n i delay err w,
    let o := Retry_loop ctx attempts fn n i delay err w in
    (length (calls_of (trace o)) <= n)%nat /\
    (forall j r, nth_error (calls_of (trace o)) j = Some r ->
                 (S j < length (calls_of (trace o)))%nat -> r <> None).
Proof.
  induction n as [|n IH]; intros i delay err w o; subst o.
  - simpl. split; [lia | intros [|j] r Hj; discriminate Hj].
  - rewrite Retry_loop_S.
    destruct (Done ctx w);
      [simpl; split; [lia | intros [|j] r Hj; discriminate Hj]|].
    destruct (fn w) as [[e|] w1];
      [|simpl; split; [lia | intros [|j] r Hj Hlt; simpl in Hlt; lia]].
    destruct (i =? wrap64 (attempts - 1));
      [simpl; split; [lia | intros [|j] r Hj Hlt; simpl in Hlt; lia]|].
    destruct (await ctx delay w1) as [[|] w2];
      [|simpl; split; [lia | intros [|j] r Hj Hlt; simpl in Hlt; lia]].
    cbn zeta. cbn [trace calls_of length].
    destruct (IH (i + 1) (wrap64 (delay * 2)) (Some e) w2) as [Hlen Hlast].
    split; [lia|].
    intros [|j] r Hj Hlt; simpl in Hj.
    + injection Hj as <-. discriminate.
    + apply (Hlast j r Hj). lia.
Qed.

(** A run in which no cancellation is observed returns what the last
    invocation returned (and [err] when there was no invocation). *)
Lemma Retry_loop_result :
  forall n i delay err w,
    let o := Retry_loop ctx attempts fn n i delay err w in
    ~ In EvCancelled (trace o) ->
    result o = last (calls_of (trace o)) err.
Proof.
  induction n as [|n IH]; intros i delay err w o Hno; subst o.
  - reflexivity.
  - rewrite Retry_loop_S in *.
    destruct (Done ctx w); [exfalso; apply Hno; left; reflexivity|].
    destruct (fn w) as [[e|] w1]; [|reflexivity].
    destruct (i =? wrap64 (attempts - 1)); [reflexivity|].
    destruct (await ctx delay w1) as [[|] w2];
      [|exfalso; apply Hno; right; left; reflexivity].
    cbn zeta in *. cbn [trace result calls_of] in *.
    rewrite last_cons_default. apply IH.
    intros Hin. apply Hno. right. right. exact Hin.
Qed.

(** A run whose last invocation succeeded returns nil, and observed no
    cancellation. *)
Lemma Retry_loop_success :
  forall n i delay err w cs,
    let o := Retry_loop ctx attempts fn n i delay err w in
    calls_of (trace o) = cs ++ [None] ->
    result o = None /\ ~ In EvCancelled (trace o).
Proof.
  induction n as [|n IH]; intros i delay err w cs o Hc; subst o.
  - simpl in Hc. destruct cs; discriminate Hc.
  - rewrite Retry_loop_S in *.
    destruct (Done ctx w); [simpl in Hc; destruct cs; discriminate Hc|].
    destruct (fn w) as [[e|] w1].
    + assert (Hone : forall x : option error, [Some e] <> cs ++ [None]).
      { intros _ Hx. destruct cs as [|c [|c' cs]]; discriminate Hx. }
      destruct (i =? wrap64 (attempts - 1));
        [exfalso; exact (Hone None Hc)|].
      destruct (await ctx delay w1) as [[|] w2];
        [|exfalso; exact (Hone None Hc)].
      cbn zeta in *. cbn [trace result calls_of] in *.
      destruct cs as [|c cs]; [destruct (calls_of _); discriminate Hc|].
      injection Hc as _ Hc.
      destruct (IH _ _ _ _ _ Hc) as [Hr Hno].
      split; [exact Hr|].
      intros [Hx|[Hx|Hx]]; try discriminate Hx. exact (Hno Hx).
    + split; [reflexivity|]. intros [Hx|[]]. discriminate Hx.
Qed.

(** The completed waits of every run, cancelled or not, follow the
    doubling: the [k]-th lasts the delay of the first doubled [k] times,
    wrapped to 64 bits. *)
Lemma Retry_loop_waits :
  forall n i delay0 err w k x,
    nth_error (waits_of (trace (Retry_loop ctx attempts fn n i
                                           (wrap64 delay0) err w))) k
    = Some x ->
    x = wrap64 (delay0 * 2 ^ Z.of_nat k).
Proof.
  induction n as [|n IH]; intros i delay0 err w k x Hx.
  - destruct k; discriminate Hx.
  - rewrite Retry_loop_S in Hx.
    destruct (Done ctx w); [destruct k; discriminate Hx|].
    destruct (fn w) as [[e|] w1]; [|destruct k; discriminate Hx].
    destruct (i =? wrap64 (attempts - 1)); [destruct k; discriminate Hx|].
    destruct (await ctx (wrap64 delay0) w1) as [[|] w2];
      [|destruct k; discriminate Hx].
    cbn zeta in Hx. cbn [trace waits_of] in Hx.
    rewrite wrap64_double in Hx.
    destruct k as [|k].
    + simpl in Hx. injection Hx as <-. f_equal. simpl. lia.
    + cbn [nth_error] in Hx. apply IH in Hx. subst x. f_equal.
      rewrite Nat2Z.inj_succ, Z.pow_succ_r by lia. lia.
Qed.

Hypothesis attempts_int : in_int64 attempts.

(** With [attempts] an [int]: a run that observes a cancellation made
    fewer invocations than it had iterations left, a run that does not
    and ends on a failure made all of them, and in both cases there are
    fewer completed waits than iterations. *)
Lemma Retry_loop_exhausted :
  forall n i delay err w,
    i + Z.of_nat (S n) = attempts -> 0 <= i ->
    let o := Retry_loop ctx attempts fn (S n) i delay err w in
    (In EvCancelled (trace o) -> (length (calls_of (trace o)) < S n)%nat) /\
    (~ In EvCancelled (trace o) -> result o <> None ->
     length (calls_of (trace o)) = S n) /\
    (length (waits_of (trace o)) <= n)%nat.
Proof.
  induction n as [|n IH]; intros i delay err w Hi Hpos o; subst o;
    rewrite Retry_loop_S;
    (destruct (Done ctx w);
     [simpl; split; [|split];
      [lia | intros Hno; exfalso; apply Hno; left; reflexivity | lia]|]);
    (destruct (fn w) as [[e|] w1];
     [|simpl; split; [|split];
       [intros [Hx|[]]; discriminate Hx | intros _ Hr; congruence | lia]]);
    rewrite wrap64_small by (unfold in_int64, minInt64, maxInt64 in *; lia).
  - replace (i =? attempts - 1) with true by (symmetry; apply Z.eqb_eq; lia).
    simpl. split; [|split];
      [intros [Hx|[]]; discriminate Hx | reflexivity | lia].
  - replace (i =? attempts - 1) with false by (symmetry; apply Z.eqb_neq; lia).
    destruct (await ctx delay w1) as [[|] w2].
    + cbn zeta. cbn [trace result calls_of waits_of length].
      destruct (IH (i + 1) (wrap64 (delay * 2)) (Some e) w2
                   ltac:(lia) ltac:(lia)) as (Hc & Hf & Hw).
      split; [|split].
      * intros [Hx|[Hx|Hx]]; try discriminate Hx. specialize (Hc Hx). lia.
      * intros Hno Hr. f_equal. apply Hf; [|exact Hr].
        intros Hx. apply Hno. right. right. exact Hx.
      * lia.
    + simpl. split; [|split];
        [lia | intros Hno; exfalso; apply Hno; right; left; reflexivity | lia].
Qed.
End RetryRuns.

(** Sum of a list whose [k]-th element is [d * 2^k]. *)
Lemma sum_of_doublings (l : list Z) :
  forall d,
    (forall k x, nth_error l k = Some x -> x = d * 2 ^ Z.of_nat k) ->
    fold_right Z.add 0 l = d * (2 ^ Z.of_nat (length l) - 1).
Proof.
  induction l as [|a l IH]; intros d Hl.
  - simpl. lia.
  - cbn [fold_right length].
    rewrite (Hl 0%nat a eq_refl).
    rewrite (IH (d * 2)).
    + rewrite Nat2Z.inj_succ, Z.pow_succ_r by lia.
      change (Z.of_nat 0) with 0. rewrite Z.pow_0_r. ring.
    + intros k x Hk. rewrite (Hl (S k) x Hk).
      rewrite Nat2Z.inj_succ, Z.pow_succ_r by lia. ring.
Qed.

(** X3: whatever the context and the work function do, [Retry] never
    invokes the work function more than [attempts] times, and only the
    last invocation of a run can have returned nil: an invocation that
    is followed by another one failed. *)
Theorem Retry_invocations_bounded {W : Type} (ctx : Ctx W) (attempts : Z)
        (d : Duration) (fn : WorkFunc W) (w : W) :
  (length (calls_of (trace (Retry ctx attempts d fn w)))
   <= Z.to_nat attempts)%nat /\
  (forall j r,
      nth_error (calls_of (trace (Retry ctx attempts d fn w))) j = Some r ->
      (S j < length (calls_of (trace (Retry ctx attempts d fn w))))%nat ->
      r <> None).
Proof.
  apply (Retry_loop_calls ctx attempts fn).
Qed.



(** X5: once the work function has been invoked [attempts] times, the
    context is not consulted any more: a run with [attempts] invocations
    observed no cancellation and returns what the last invocation
    returned, even if the context became done meanwhile. *)
Theorem Retry_all_attempts_made {W : Type} (ctx : Ctx W) (attempts : Z)
        (d : Duration) (fn : WorkFunc W) (w : W) :
  1 <= attempts <= maxInt64 ->
  length (calls_of (trace (Retry ctx attempts d fn w))) = Z.to_nat attempts ->
  ~ In EvCancelled (trace (Retry ctx attempts d fn w)) /\
  result (Retry ctx attempts d fn w)
  = last (calls_of (trace (Retry ctx attempts d fn w))) None.
Proof.
  intros Hatt Hlen.
  assert (Hint : in_int64 attempts)
    by (unfold in_int64, minInt64, maxInt64 in *; lia).
  assert (Hno : ~ In EvCancelled (trace (Retry ctx attempts d fn w))).
  { unfold Retry in *.
    destruct (Z.to_nat attempts) as [|n] eqn:Hn; [lia|].
    destruct (Retry_loop_exhausted ctx attempts fn Hint n 0 d None w
                ltac:(lia) ltac:(lia)) as (Hc & _ & _).
    intros Hin. specialize (Hc Hin). lia. }
  split; [exact Hno|].
  apply (Retry_loop_result ctx attempts fn). exact Hno.
Qed.

Lemma Retry_all_attempts_made_witness :
  1 <= 1 <= maxInt64 /\
  length (calls_of (trace (Retry Demo.WithCancel 1 (Demo.ms 10)
                                 Demo.fail_and_cancel (Demo.at_time 0))))
  = Z.to_nat 1 /\
  Done Demo.WithCancel
       (world (Retry Demo.WithCancel 1 (Demo.ms 10) Demo.fail_and_cancel
                     (Demo.at_time 0))) = true /\
  result (Retry Demo.WithCancel 1 (Demo.ms 10) Demo.fail_and_cancel
                (Demo.at_time 0)) = Some Demo.errTest.
Proof.
  assert (H1 : 1 <= 1 <= maxInt64) by (unfold maxInt64; lia).
  assert (H2 : length (calls_of (trace (Retry Demo.WithCancel 1 (Demo.ms 10)
                                              Demo.fail_and_cancel
                                              (Demo.at_time 0))))
               = Z.to_nat 1) by reflexivity.
  destruct (Retry_all_attempts_made Demo.WithCancel 1 (Demo.ms 10)
              Demo.fail_and_cancel (Demo.at_time 0) H1 H2) as (_ & Hr).
  exact (conj H1 (conj H2 (conj eq_refl Hr))).
Defined.

(** X6: [Retry] returns nil exactly when [attempts <= 0] or the last
    invocation of the work function returned nil; in particular a
    success is never replaced by a cancellation error, and an observed
    cancellation is never reported as nil. *)
Theorem Retry_nil_iff_success {W : Type} (ctx : Ctx W) (attempts : Z)
        (d : Duration) (fn : WorkFunc W) (w : W) :
  result (Retry ctx attempts d fn w) = None <->
  (attempts <= 0 \/
   exists cs, calls_of (trace (Retry ctx attempts d fn w)) = cs ++ [None]).
Proof.
  split.
  - intros Hr.
    assert (Hno : ~ In EvCancelled (trace (Retry ctx attempts d fn w))).
    { intros Hin.
      destruct (Retry_loop_cancelled ctx attempts fn _ _ _ _ _ Hin)
        as (He & Hdone & _).
      unfold Retry in Hr. rewrite He in Hr.
      exact (Err_after_Done ctx _ Hdone Hr). }
    pose proof (Retry_loop_result ctx attempts fn _ _ _ _ _ Hno) as Hlast.
    fold (Retry ctx attempts d fn w) in Hlast.
    destruct (calls_of (trace (Retry ctx attempts d fn w))) as [|c cs] eqn:Hc.
    + left. unfold Retry in Hc, Hno.
      destruct (Z.to_nat attempts) as [|n] eqn:Hn; [lia|]. exfalso.
      rewrite Retry_loop_S in Hc, Hno.
      destruct (Done ctx w); [apply Hno; left; reflexivity|].
      destruct (fn w) as [[e|] w1]; [|discriminate Hc].
      destruct (0 =? wrap64 (attempts - 1)); [discriminate Hc|].
      destruct (await ctx d w1) as [[|] w2]; discriminate Hc.
    + right.
      destruct (@exists_last _ (c :: cs) ltac:(discriminate)) as (cs' & x & Hx).
      exists cs'. rewrite Hx in Hlast |- *. rewrite last_last in Hlast.
      congruence.
  - intros [Hle | [cs Hc]].
    + unfold Retry. replace (Z.to_nat attempts) with O by lia. reflexivity.
    + apply (Retry_loop_success ctx attempts fn _ _ _ _ _ cs Hc).
Qed.

(** X7: with [attempts = 1] and a context that is not done on entry,
    [Retry] makes exactly one try and no wait, and returns what the work
    function returned, nil or not. *)
Theorem Retry_single_attempt {W : Type} (ctx : Ctx W) (d : Duration)
        (fn : WorkFunc W) (w : W) :
  Done ctx w = false ->
  Retry ctx 1 d fn w
  = Build_Outcome (fst (fn w)) (snd (fn w)) [EvCall (fst (fn w))].
Proof.
  intros Hd. unfold Retry.
  change (Z.to_nat 1) with 1%nat.
  rewrite Retry_loop_S, Hd.
  destruct (fn w) as [[e|] w1]; reflexivity.
Qed.

Lemma Retry_single_attempt_witness :
  Done Demo.WithCancel (Demo.at_time 0) = false /\
  Retry Demo.WithCancel 1 (Demo.ms 10) Demo.fail_and_cancel (Demo.at_time 0)
  = Build_Outcome (Some Demo.errTest)
                  (Demo.cancel (Demo.invoked (Demo.at_time 0)))
                  [EvCall (Some Demo.errTest)].
Proof.
  split; [reflexivity|].
  apply (Retry_single_attempt Demo.WithCancel (Demo.ms 10) Demo.fail_and_cancel
                              (Demo.at_time 0)).
  reflexivity.
Defined.

(** X8: in every run of [Retry], cancelled or not, the [k]-th completed
    wait (counting from 0) lasts [initialDelay * 2^k] wrapped to 64
    bits, hence exactly [initialDelay * 2^k] when that is a
    [Duration]. *)
Theorem Retry_waits_double_in_every_run {W : Type} (ctx : Ctx W)
        (attempts : Z) (d : Duration) (fn : WorkFunc W) (w : W) :
  in_int64 d ->
  forall k x,
    nth_error (waits_of (trace (Retry ctx attempts d fn w))) k = Some x ->
    x = wrap64 (d * 2 ^ Z.of_nat k) /\
    (in_int64 (d * 2 ^ Z.of_nat k) -> x = d * 2 ^ Z.of_nat k).
Proof.
  intros Hd k x Hx. unfold Retry in Hx.
  rewrite <- (wrap64_small d Hd) in Hx at 1.
  apply Retry_loop_waits in Hx.
  split; [exact Hx|]. intros Hfit. rewrite Hx. apply wrap64_small, Hfit.
Qed.

Lemma Retry_waits_double_in_every_run_witness :
  in_int64 (Demo.ms 10) /\
  In EvCancelled (trace (Retry Demo.WithCancel 5 (Demo.ms 10)
                               (Demo.fail_cancel_at 2) (Demo.at_time 0))) /\
  nth_error (waits_of (trace (Retry Demo.WithCancel 5 (Demo.ms 10)
                                    (Demo.fail_cancel_at 2) (Demo.at_time 0))))
            1 = Some (Demo.ms 20) /\
  Demo.ms 20 = Demo.ms 10 * 2 ^ Z.of_nat 1.
Proof.
  assert (H1 : in_int64 (Demo.ms 10))
    by (unfold in_int64, minInt64, maxInt64, Demo.ms; lia).
  assert (H2 : nth_error
                 (waits_of (trace (Retry Demo.WithCancel 5 (Demo.ms 10)
                                         (Demo.fail_cancel_at 2)
                                         (Demo.at_time 0)))) 1
               = Some (Demo.ms 20)) by reflexivity.
  destruct (Retry_waits_double_in_every_run Demo.WithCancel 5 (Demo.ms 10)
              (Demo.fail_cancel_at 2) (Demo.at_time 0) H1 1%nat (Demo.ms 20) H2)
    as (_ & Hexact).
  refine (conj H1 (conj _ (conj H2 (Hexact _)))).
  - simpl. do 5 right. left. reflexivity.
  - unfold in_int64, minInt64, maxInt64, Demo.ms. simpl. lia.
Defined.

(** X9: for a non-negative initial delay whose doubling cannot overflow
    within [attempts] attempts, the time [Retry] spends in completed
    waits is [initialDelay * (2^m - 1)] for [m] completed waits, and
    there are at most [attempts - 1] of them, so the total is at most
    [initialDelay * (2^(attempts-1) - 1)], in every run. *)
Theorem Retry_total_wait {W : Type} (ctx : Ctx W) (attempts : Z)
        (d : Duration) (fn : WorkFunc W) (w : W) :
  1 <= attempts <= maxInt64 ->
  0 <= d ->
  d * 2 ^ (attempts - 1) <= maxInt64 ->
  total_wait (trace (Retry ctx attempts d fn w))
  = d * (2 ^ Z.of_nat (length (waits_of (trace (Retry ctx attempts d fn w)))) - 1)
  /\
  Z.of_nat (length (waits_of (trace (Retry ctx attempts d fn w))))
  <= attempts - 1 /\
  total_wait (trace (Retry ctx attempts d fn w))
  <= d * (2 ^ (attempts - 1) - 1).
Proof.
  intros Hatt Hd Hfit.
  assert (Hint : in_int64 attempts)
    by (unfold in_int64, minInt64, maxInt64 in *; lia).
  assert (Hdint : in_int64 d).
  { pose proof (Z.pow_pos_nonneg 2 (attempts - 1) ltac:(lia) ltac:(lia)).
    unfold in_int64, minInt64, maxInt64 in *. nia. }
  assert (Hm : Z.of_nat (length (waits_of (trace (Retry ctx attempts d fn w))))
               <= attempts - 1).
  { unfold Retry.
    destruct (Z.to_nat attempts) as [|n] eqn:Hn; [lia|].
    destruct (Retry_loop_exhausted ctx attempts fn Hint n 0 d None w
                ltac:(lia) ltac:(lia)) as (_ & _ & Hw).
    lia. }
  assert (Hsum : total_wait (trace (Retry ctx attempts d fn w))
                 = d * (2 ^ Z.of_nat (length (waits_of
                          (trace (Retry ctx attempts d fn w)))) - 1)).
  { unfold total_wait. apply sum_of_doublings.
    intros k x Hx.
    assert (Hk : (k < length (waits_of (trace (Retry ctx attempts d fn w))))%nat)
      by (apply (proj1 (nth_error_Some
                          (waits_of (trace (Retry ctx attempts d fn w))) k));
          intros Hnone; discriminate (eq_trans (eq_sym Hnone) Hx)).
    unfold Retry in Hx. rewrite <- (wrap64_small d Hdint) in Hx at 1.
    apply Retry_loop_waits in Hx. rewrite Hx.
    apply wrap64_small.
    pose proof (Z.pow_le_mono_r 2 (Z.of_nat k) (attempts - 1)
                                ltac:(lia) ltac:(lia)) as Hpow.
    pose proof (Z.pow_pos_nonneg 2 (Z.of_nat k) ltac:(lia) ltac:(lia)).
    unfold in_int64, minInt64, maxInt64 in *. nia. }
  split; [exact Hsum|]. split; [exact Hm|].
  rewrite Hsum.
  pose proof (Z.pow_le_mono_r 2 _ (attempts - 1) ltac:(lia) Hm) as Hpow.
  nia.
Qed.

Lemma Retry_total_wait_witness :
  1 <= 4 <= maxInt64 /\ 0 <= Demo.ms 10 /\
  Demo.ms 10 * 2 ^ (4 - 1) <= maxInt64 /\
  total_wait (trace (Retry Demo.Background 4 (Demo.ms 10) Demo.fail
                           (Demo.at_time 0))) = Demo.ms 70.
Proof.
  assert (H1 : 1 <= 4 <= maxInt64) by (unfold maxInt64; lia).
  assert (H2 : 0 <= Demo.ms 10) by (unfold Demo.ms; lia).
  assert (H3 : Demo.ms 10 * 2 ^ (4 - 1) <= maxInt64)
    by (unfold maxInt64, Demo.ms; simpl; lia).
  destruct (Retry_total_wait Demo.Background 4 (Demo.ms 10) Demo.fail
              (Demo.at_time 0) H1 H2 H3) as (Hsum & _ & _).
  exact (conj H1 (conj H2 (conj H3 Hsum))).
Defined.


(** * Further properties of the breaker *)

Section BreakerSteps.
Context {W : Type} `{Clock W}.

(** A call never changes the thresholds or the timeout. *)
Lemma Execute_config (fn : WorkFunc W) (cb : CircuitBreaker) (w : W) :
  failureThreshold (breaker (Execute fn cb w)) = failureThreshold cb /\
  successThreshold (breaker (Execute fn cb w)) = successThreshold cb /\
  openTimeout (breaker (Execute fn cb w)) = openTimeout cb.
Proof.
  unfold Execute, Execute_gate, onSuccess, onFailure.
  destruct (state cb) eqn:Hs; try destruct (_ >? _);
    destruct (fn w) as [[e|] w1]; cbn; try rewrite Hs; cbn;
    repeat match goal with
           | |- context [if ?c then _ else _] => destruct c; cbn
           end;
    repeat split.
Qed.

Lemma Execute_all_config (calls : list (WorkFunc W * W)) :
  forall cb,
    failureThreshold (snd (Execute_all calls cb)) = failureThreshold cb /\
    successThreshold (snd (Execute_all calls cb)) = successThreshold cb /\
    openTimeout (snd (Execute_all calls cb)) = openTimeout cb.
Proof.
  induction calls as [|[fn w] rest IH]; intros cb; [repeat split|].
  cbn [Execute_all].
  destruct (IH (breaker (Execute fn cb w))) as (H1 & H2 & H3).
  destruct (Execute_config fn cb w) as (G1 & G2 & G3).
  destruct (Execute_all rest (breaker (Execute fn cb w))) as [rs cb2].
  cbn [snd] in *. repeat split; congruence.
Qed.

(** A call keeps the counts where [breaker_ok] wants them. *)
Lemma Execute_ok (fn : WorkFunc W) (cb : CircuitBreaker) (w : W) :
  breaker_ok cb -> breaker_ok (breaker (Execute fn cb w)).
Proof.
  unfold breaker_ok. intros (HF & HS & Hfc & Hsc & Hcl & Hho).
  assert (Hone : wrap64 (0 + 1) = 1) by reflexivity.
  unfold Execute, Execute_gate, onSuccess, onFailure.
  destruct (state cb) eqn:Hs;
    try specialize (Hcl eq_refl); try specialize (Hho eq_refl);
    try destruct (_ >? _);
    destruct (fn w) as [[e|] w1];
    cbn [breaker state failureCount successCount failureThreshold
         successThreshold set_state set_failureCount set_successCount
         set_lastFailureTime fst snd];
    rewrite ?Hs;
    cbn [breaker state failureCount successCount failureThreshold
         successThreshold set_state set_failureCount set_successCount
         set_lastFailureTime fst snd];
    rewrite ?Hone;
    rewrite ?wrap64_small
      by (unfold in_int64, minInt64, maxInt64 in *; lia);
    repeat match goal with
           | |- context [if ?a >=? ?b then _ else _] =>
               destruct (Z.geb_spec a b)
           end;
    cbn [breaker state failureCount successCount failureThreshold
         successThreshold set_state set_failureCount set_successCount
         set_lastFailureTime fst snd];
    unfold maxInt64 in *;
    repeat split; intros; try congruence; try lia.
Qed.

Lemma Execute_all_ok (calls : list (WorkFunc W * W)) :
  forall cb, breaker_ok cb -> breaker_ok (snd (Execute_all calls cb)).
Proof.
  induction calls as [|[fn w] rest IH]; intros cb Hok; [exact Hok|].
  cbn [Execute_all].
  specialize (IH _ (Execute_ok fn cb w Hok)).
  destruct (Execute_all rest (breaker (Execute fn cb w))) as [rs cb2].
  exact IH.
Qed.

(** Fewer than [failureThreshold] failures and then a success, on a
    closed breaker that counts no failure: still closed, count 0. *)
Lemma Execute_all_broken_streak (fails : list (WorkFunc W * W))
      (s : WorkFunc W * W) (cb : CircuitBreaker) :
  state cb = Closed ->
  failureCount cb = 0 ->
  1 <= failureThreshold cb <= maxInt64 ->
  Forall call_fails fails ->
  Z.of_nat (length fails) < failureThreshold cb ->
  call_succeeds s ->
  state (snd (Execute_all (fails ++ [s]) cb)) = Closed /\
  failureCount (snd (Execute_all (fails ++ [s]) cb)) = 0 /\
  failureThreshold (snd (Execute_all (fails ++ [s]) cb)) = failureThreshold cb.
Proof.
  intros Hs Hc HF Hall Hlen Hok.
  destruct (Execute_all_config (fails ++ [s]) cb) as (Hthr & _ & _).
  destruct (Execute_all_failures fails cb Hs Hall ltac:(lia) ltac:(lia)
                                 ltac:(lia)) as [Hbelow _].
  destruct (Hbelow ltac:(lia)) as [Hst _].
  destruct s as [fn w]. unfold call_succeeds in Hok. cbn [fst snd] in Hok.
  rewrite Execute_all_app in *. cbn [snd Execute_all] in *.
  assert (Hgate : Execute_gate (snd (Execute_all fails cb)) w
                  = Some (snd (Execute_all fails cb)))
    by (apply Execute_gate_not_Open; congruence).
  destruct (Execute_passed fn _ _ w Hgate) as (_ & _ & _ & Hb).
  rewrite Hok in Hb. unfold onSuccess in Hb. rewrite Hst in Hb.
  rewrite Hb in *. cbn [snd state failureCount set_failureCount] in *.
  repeat split; assumption.
Qed.
End BreakerSteps.

(** X1: no history of calls, whatever their outcome, changes the
    parameters a breaker was built with: [failureThreshold],
    [successThreshold] and [openTimeout] are those of the start. *)
Theorem breaker_config_is_fixed {W : Type} `{Clock W}
        (calls : list (WorkFunc W * W)) (cb : CircuitBreaker) :
  failureThreshold (snd (Execute_all calls cb)) = failureThreshold cb /\
  successThreshold (snd (Execute_all calls cb)) = successThreshold cb /\
  openTimeout (snd (Execute_all calls cb)) = openTimeout cb.
Proof.
  apply Execute_all_config.
Qed.

(** X2: for a breaker built by [NewCircuitBreaker] with thresholds that
    are positive [int]s, after any history of calls the two counts are
    between 0 and their threshold, [failureCount] is below
    [failureThreshold] whenever the breaker is [Closed] and
    [successCount] below [successThreshold] whenever it is [HalfOpen];
    so the increments never overflow. *)
Theorem breaker_counts_stay_in_range {W : Type} `{Clock W}
        (F S : Z) (T : Duration) (calls : list (WorkFunc W * W)) :
  1 <= F <= maxInt64 ->
  1 <= S <= maxInt64 ->
  breaker_ok (NewCircuitBreaker F S T) /\
  breaker_ok (snd (Execute_all calls (NewCircuitBreaker F S T))).
Proof.
  intros HF HS.
  assert (Hnew : breaker_ok (NewCircuitBreaker F S T)).
  { unfold breaker_ok, NewCircuitBreaker.
    cbn [state failureThreshold successThreshold failureCount successCount].
    unfold maxInt64 in *. repeat split; intros; try lia; discriminate. }
  split; [exact Hnew|]. apply Execute_all_ok. exact Hnew.
Qed.

Lemma breaker_counts_stay_in_range_witness :
  1 <= 2 <= maxInt64 /\
  breaker_ok (snd (Execute_all [(Demo.fail, Demo.at_time 0);
                                (Demo.fail, Demo.at_time 1);
                                (Demo.succeed, Demo.at_time (Demo.ms 200))]
                               (NewCircuitBreaker 2 2 (Demo.ms 100)))).
Proof.
  assert (H1 : 1 <= 2 <= maxInt64) by (unfold maxInt64; lia).
  destruct (breaker_counts_stay_in_range 2 2 (Demo.ms 100)
              [(Demo.fail, Demo.at_time 0); (Demo.fail, Demo.at_time 1);
               (Demo.succeed, Demo.at_time (Demo.ms 200))] H1 H1) as [_ Hok].
  exact (conj H1 Hok).
Defined.

(** X10: what one call can do to the state.  A [Closed] breaker never
    becomes [HalfOpen]; a breaker that was not [Open] is [Open] after
    the call only if the work function failed; one that was not
    [Closed] is [Closed] after it only if the work function succeeded;
    and an [Open] breaker leaves [Open] only by a call made after the
    cooldown whose work function succeeded. *)
Theorem Execute_transitions {W : Type} `{Clock W}
        (fn : WorkFunc W) (cb : CircuitBreaker) (w : W) :
  (state cb = Closed -> state (breaker (Execute fn cb w)) <> HalfOpen) /\
  (state cb <> Open -> state (breaker (Execute fn cb w)) = Open ->
   fst (fn w) <> None) /\
  (state cb <> Closed -> state (breaker (Execute fn cb w)) = Closed ->
   fst (fn w) = None) /\
  (state cb = Open -> state (breaker (Execute fn cb w)) <> Open ->
   time_Since w (lastFailureTime cb) > openTimeout cb /\ fst (fn w) = None).
Proof.
  unfold Execute, Execute_gate, onSuccess, onFailure.
  destruct (state cb) eqn:Hs;
    try destruct (Z.gtb_spec (time_Since w (lastFailureTime cb))
                             (openTimeout cb));
    destruct (fn w) as [[e|] w1];
    cbn [breaker state set_state set_failureCount set_successCount
         set_lastFailureTime fst snd failureCount successCount
         failureThreshold successThreshold];
    rewrite ?Hs;
    repeat match goal with
           | |- context [if ?c then _ else _] => destruct c
           end;
    cbn [breaker state set_state set_failureCount set_successCount
         set_lastFailureTime fst snd];
    rewrite ?Hs;
    repeat split; intros; try congruence; try lia.
Qed.

(** X11: as long as the cooldown has not elapsed, an [Open] breaker
    rejects a whole history of calls: each returns [ErrCircuitOpen] and
    the breaker is left exactly as it was. *)
Theorem Execute_all_rejected {W : Type} `{Clock W}
        (calls : list (WorkFunc W * W)) (cb : CircuitBreaker) :
  state cb = Open ->
  Forall (fun c => time_Since (snd c) (lastFailureTime cb) <= openTimeout cb)
         calls ->
  Execute_all calls cb = (map (fun _ => Some ErrCircuitOpen) calls, cb).
Proof.
  intros Hs Hall. induction Hall as [|[fn w] rest Hc _ IH]; [reflexivity|].
  cbn [snd] in Hc. cbn [Execute_all map].
  assert (HE : Execute fn cb w = Build_Executed (Some ErrCircuitOpen) cb w []).
  { unfold Execute, Execute_gate. rewrite Hs.
    replace (time_Since w (lastFailureTime cb) >? openTimeout cb) with false
      by (symmetry; rewrite Z.gtb_ltb; apply Z.ltb_ge; lia).
    reflexivity. }
  rewrite HE. cbn [breaker returned]. rewrite IH. reflexivity.
Qed.

Lemma Execute_all_rejected_witness :
  state (Demo.tripped (Demo.ms 10)) = Open /\
  Execute_all [(Demo.succeed, Demo.at_time (Demo.ms 50));
               (Demo.fail, Demo.at_time (Demo.ms 110))]
              (Demo.tripped (Demo.ms 10))
  = ([Some ErrCircuitOpen; Some ErrCircuitOpen], Demo.tripped (Demo.ms 10)).
Proof.
  split; [reflexivity|].
  apply (Execute_all_rejected
           [(Demo.succeed, Demo.at_time (Demo.ms 50));
            (Demo.fail, Demo.at_time (Demo.ms 110))]
           (Demo.tripped (Demo.ms 10)) eq_refl).
  repeat constructor; cbn; vm_compute; discriminate.
Defined.

(** X12: thresholds of 1 or less, zero and negative ones included, act
    as 1: a single failure opens a [Closed] breaker whose
    [failureThreshold] is at most 1, and a single successful trial call
    closes an [Open] one whose [successThreshold] is at most 1. *)
Theorem breaker_thresholds_at_most_one {W : Type} `{Clock W}
        (fn : WorkFunc W) (cb : CircuitBreaker) (w : W) :
  (failureThreshold cb <= 1 -> state cb = Closed ->
   0 <= failureCount cb < maxInt64 -> fst (fn w) <> None ->
   state (breaker (Execute fn cb w)) = Open /\
   lastFailureTime (breaker (Execute fn cb w)) = time_Now (snd (fn w))) /\
  (successThreshold cb <= 1 -> state cb = Open ->
   time_Since w (lastFailureTime cb) > openTimeout cb -> fst (fn w) = None ->
   state (breaker (Execute fn cb w)) = Closed /\
   failureCount (breaker (Execute fn cb w)) = 0).
Proof.
  split.
  - intros HF Hs Hc Hf.
    destruct (Execute_passed fn cb cb w) as (_ & _ & _ & Hb).
    { apply Execute_gate_not_Open. congruence. }
    destruct (fst (fn w)) as [e|]; [|congruence].
    rewrite Hb. unfold onFailure. rewrite Hs.
    cbn [failureCount failureThreshold set_failureCount].
    rewrite wrap64_small by (unfold in_int64, minInt64, maxInt64 in *; lia).
    replace (failureCount cb + 1 >=? failureThreshold cb) with true
      by (symmetry; apply Z.geb_le; lia).
    split; reflexivity.
  - intros HS Hs Ht Hok.
    destruct (Execute_passed fn cb _ w (Execute_gate_elapsed cb w Hs Ht))
      as (_ & _ & _ & Hb).
    rewrite Hok in Hb. rewrite Hb. unfold onSuccess.
    cbn [state successCount successThreshold set_successCount set_state].
    change (wrap64 (0 + 1)) with 1.
    replace (1 >=? successThreshold cb) with true
      by (symmetry; apply Z.geb_le; lia).
    split; reflexivity.
Qed.

Lemma breaker_thresholds_at_most_one_witness :
  state (breaker (Execute Demo.fail (NewCircuitBreaker 0 (-3) (Demo.ms 100))
                          (Demo.at_time 7))) = Open /\
  state (breaker (Execute Demo.succeed
                          (breaker (Execute Demo.fail
                                            (NewCircuitBreaker 0 (-3) (Demo.ms 100))
                                            (Demo.at_time 7)))
                          (Demo.at_time (Demo.ms 200)))) = Closed.
Proof.
  destruct (breaker_thresholds_at_most_one
              Demo.fail (NewCircuitBreaker 0 (-3) (Demo.ms 100))
              (Demo.at_time 7)) as [Hopen _].
  destruct (Hopen ltac:(simpl; lia) eq_refl
                  ltac:(unfold maxInt64; simpl; lia)
                  ltac:(discriminate)) as [Hs _].
  destruct (breaker_thresholds_at_most_one
              Demo.succeed
              (breaker (Execute Demo.fail
                                (NewCircuitBreaker 0 (-3) (Demo.ms 100))
                                (Demo.at_time 7)))
              (Demo.at_time (Demo.ms 200))) as [_ Hclose].
  destruct (Hclose ltac:(simpl; lia) eq_refl eq_refl eq_refl) as [Hc _].
  exact (conj Hs Hc).
Defined.

(** X13: a whole cycle.  On a [Closed] breaker that counts no failure,
    [failureThreshold] consecutive failures open it and stamp the
    instant of the last of them; if the next call comes more than
    [openTimeout] after that instant and it and the calls after it
    succeed, [successThreshold] of them close the breaker again with
    [failureCount] 0. *)
Theorem breaker_trip_and_recover {W : Type} `{Clock W}
        (cb : CircuitBreaker)
        (fails : list (WorkFunc W * W)) (final trial : WorkFunc W * W)
        (rest : list (WorkFunc W * W)) :
  1 <= failureThreshold cb <= maxInt64 ->
  1 <= successThreshold cb <= maxInt64 ->
  state cb = Closed ->
  failureCount cb = 0 ->
  Forall call_fails (fails ++ [final]) ->
  Z.of_nat (length (fails ++ [final])) = failureThreshold cb ->
  time_Since (snd trial) (time_Now (snd (fst final (snd final))))
  > openTimeout cb ->
  Forall call_succeeds (trial :: rest) ->
  Z.of_nat (length (trial :: rest)) = successThreshold cb ->
  (state (snd (Execute_all (fails ++ [final]) cb)) = Open /\
   lastFailureTime (snd (Execute_all (fails ++ [final]) cb))
   = time_Now (snd (fst final (snd final)))) /\
  (state (snd (Execute_all ((fails ++ [final]) ++ trial :: rest) cb)) = Closed /\
   failureCount (snd (Execute_all ((fails ++ [final]) ++ trial :: rest) cb)) = 0).
Proof.
  intros HF HS Hs Hc Hfail Hlen Ht Hsucc Hlen2.
  apply Forall_app in Hfail. destruct Hfail as [Hfails Hfinal].
  inversion Hfinal as [|c l Hf _]; subst. clear Hfinal.
  rewrite length_app in Hlen. cbn [length] in Hlen.
  destruct (Execute_all_config fails cb) as (Hthr & Hsthr & Hto).
  destruct (Execute_all_failures fails cb Hs Hfails ltac:(lia) ltac:(lia)
                                 ltac:(lia)) as [Hbelow _].
  destruct (Hbelow ltac:(lia)) as [Hst Hcnt].
  destruct final as [fnF wF]. unfold call_fails in Hf. cbn [fst snd] in *.
  (* the breaker after the failure that opens it *)
  assert (Hopen : state (snd (Execute_all (fails ++ [(fnF, wF)]) cb)) = Open /\
                  lastFailureTime (snd (Execute_all (fails ++ [(fnF, wF)]) cb))
                  = time_Now (snd (fnF wF))).
  { rewrite Execute_all_app. cbn [snd Execute_all].
    assert (Hgate : Execute_gate (snd (Execute_all fails cb)) wF
                    = Some (snd (Execute_all fails cb)))
      by (apply Execute_gate_not_Open; congruence).
    destruct (Execute_passed fnF _ _ wF Hgate) as (_ & _ & _ & Hb).
    destruct (fst (fnF wF)) as [e|]; [|congruence].
    rewrite Hb. unfold onFailure. rewrite Hst.
    cbn [failureCount failureThreshold set_failureCount].
    rewrite wrap64_small by (unfold in_int64, minInt64, maxInt64 in *; lia).
    replace (failureCount (snd (Execute_all fails cb)) + 1
             >=? failureThreshold (snd (Execute_all fails cb))) with true
      by (symmetry; apply Z.geb_le; lia).
    split; reflexivity. }
  split; [exact Hopen|].
  destruct Hopen as [Hso Hlast].
  destruct (Execute_all_config (fails ++ [(fnF, wF)]) cb) as (_ & Hsthr2 & Hto2).
  rewrite (Execute_all_app (fails ++ [(fnF, wF)])). cbn [snd].
  set (cbO := snd (Execute_all (fails ++ [(fnF, wF)]) cb)) in *.
  destruct trial as [fn w]. cbn [snd] in Ht.
  assert (Hel : time_Since w (lastFailureTime cbO) > openTimeout cbO)
    by (rewrite Hlast, Hto2; exact Ht).
  assert (HE : Execute_all ((fn, w) :: rest) cbO
               = Execute_all ((fn, w) :: rest)
                             (set_successCount 0 (set_state HalfOpen cbO))).
  { cbn [Execute_all]. rewrite (Execute_trial fn cbO w Hso Hel). reflexivity. }
  rewrite HE.
  destruct (Execute_all_successes ((fn, w) :: rest)
              (set_successCount 0 (set_state HalfOpen cbO))
              eq_refl Hsucc) as (_ & _ & Hclosed).
  - simpl. lia.
  - cbn [successCount successThreshold set_successCount set_state]. lia.
  - cbn [successThreshold set_successCount set_state]. lia.
  - apply Hclosed; [|discriminate].
    cbn [successCount successThreshold set_successCount set_state]. lia.
Qed.

Lemma breaker_trip_and_recover_witness :
  state (snd (Execute_all
                (([(Demo.fail, Demo.at_time (Demo.ms 1))]
                    ++ [(Demo.fail, Demo.at_time (Demo.ms 2))])
                   ++ (Demo.succeed, Demo.at_time (Demo.ms 112))
                   :: [(Demo.succeed, Demo.at_time (Demo.ms 113))])
                (NewCircuitBreaker 2 2 (Demo.ms 100)))) = Closed /\
  failureCount
    (snd (Execute_all
            (([(Demo.fail, Demo.at_time (Demo.ms 1))]
                ++ [(Demo.fail, Demo.at_time (Demo.ms 2))])
               ++ (Demo.succeed, Demo.at_time (Demo.ms 112))
               :: [(Demo.succeed, Demo.at_time (Demo.ms 113))])
            (NewCircuitBreaker 2 2 (Demo.ms 100)))) = 0.
Proof.
  assert (H1 : 1 <= 2 <= maxInt64) by (unfold maxInt64; lia).
  refine (proj2 (breaker_trip_and_recover
                   (NewCircuitBreaker 2 2 (Demo.ms 100))
                   [(Demo.fail, Demo.at_time (Demo.ms 1))]
                   (Demo.fail, Demo.at_time (Demo.ms 2))
                   (Demo.succeed, Demo.at_time (Demo.ms 112))
                   [(Demo.succeed, Demo.at_time (Demo.ms 113))]
                   H1 H1 eq_refl eq_refl _ eq_refl eq_refl _ eq_refl)).
  - repeat constructor; discriminate.
  - repeat constructor.
Defined.

(** X14: one call invokes the work function at most once.  It is
    rejected exactly when the breaker is [Open] and the cooldown has not
    elapsed, and then returns [ErrCircuitOpen] without invoking it;
    otherwise it invokes it once and returns what it returned.  So a
    call returns nil exactly when the work function ran and returned
    nil. *)
Theorem Execute_returns {W : Type} `{Clock W}
        (fn : WorkFunc W) (cb : CircuitBreaker) (w : W) :
  (Execute_gate cb w = None <->
   state cb = Open /\ time_Since w (lastFailureTime cb) <= openTimeout cb) /\
  (Execute_gate cb w = None ->
   returned (Execute fn cb w) = Some ErrCircuitOpen /\
   log (Execute fn cb w) = []) /\
  (Execute_gate cb w <> None ->
   returned (Execute fn cb w) = fst (fn w) /\
   log (Execute fn cb w) = [EvCall (fst (fn w))] /\
   world_after (Execute fn cb w) = snd (fn w)) /\
  (returned (Execute fn cb w) = None <->
   log (Execute fn cb w) = [EvCall None]).
Proof.
  assert (Hrej : Execute_gate cb w = None ->
                 returned (Execute fn cb w) = Some ErrCircuitOpen /\
                 log (Execute fn cb w) = []).
  { intros Hg. unfold Execute. rewrite Hg. split; reflexivity. }
  assert (Hrun : Execute_gate cb w <> None ->
                 returned (Execute fn cb w) = fst (fn w) /\
                 log (Execute fn cb w) = [EvCall (fst (fn w))] /\
                 world_after (Execute fn cb w) = snd (fn w)).
  { intros Hg. destruct (Execute_gate cb w) as [cb1|] eqn:Hg1; [|congruence].
    destruct (Execute_passed fn cb cb1 w Hg1) as (Hr & Hw & Hl & _).
    repeat split; assumption. }
  split; [|split; [exact Hrej | split; [exact Hrun|]]].
  - unfold Execute_gate.
    destruct (state cb); try (split; [discriminate | intros [Hs _]; discriminate Hs]).
    destruct (Z.gtb_spec (time_Since w (lastFailureTime cb)) (openTimeout cb)).
    + split; [discriminate | intros [_ Hle]; lia].
    + split; [intros _; split; [reflexivity | lia] | reflexivity].
  - destruct (Execute_gate cb w) as [cb1|] eqn:Hg.
    + destruct (Hrun ltac:(discriminate)) as (Hr & Hl & _).
      rewrite Hr, Hl. split; [intros ->; reflexivity | congruence].
    + destruct (Hrej eq_refl) as (Hr & Hl).
      rewrite Hr, Hl. split; discriminate.
Qed.

(** X15: failures that are not consecutive do not add up.  On a
    [Closed] breaker that counts no failure, any history made of
    streaks of fewer than [failureThreshold] failures, each ended by a
    success, leaves the breaker [Closed] with [failureCount] 0, however
    many failures there are in total. *)
Theorem breaker_broken_streaks_never_trip {W : Type} `{Clock W}
        (blocks : list (list (WorkFunc W * W) * (WorkFunc W * W)))
        (cb : CircuitBreaker) :
  1 <= failureThreshold cb <= maxInt64 ->
  state cb = Closed ->
  failureCount cb = 0 ->
  Forall (fun b => Forall call_fails (fst b) /\
                   Z.of_nat (length (fst b)) < failureThreshold cb /\
                   call_succeeds (snd b)) blocks ->
  state (snd (Execute_all (streaks blocks) cb)) = Closed /\
  failureCount (snd (Execute_all (streaks blocks) cb)) = 0.
Proof.
  intros HF Hs Hc Hall. revert cb HF Hs Hc Hall.
  induction blocks as [|[fails s] blocks IH]; intros cb HF Hs Hc Hall.
  - simpl. split; assumption.
  - inversion Hall as [|b l (Hfails & Hlen & Hok) Hrest]; subst.
    cbn [fst snd] in *.
    unfold streaks in *. cbn [flat_map fst snd].
    rewrite Execute_all_app. cbn [snd].
    destruct (Execute_all_broken_streak fails s cb Hs Hc HF Hfails Hlen Hok)
      as (Hs1 & Hc1 & Hthr).
    apply IH; try assumption; rewrite Hthr; assumption.
Qed.

Lemma breaker_broken_streaks_never_trip_witness :
  state (snd (Execute_all
                (streaks [([(Demo.fail, Demo.at_time 1);
                            (Demo.fail, Demo.at_time 2)],
                           (Demo.succeed, Demo.at_time 3));
                          ([(Demo.fail, Demo.at_time 4);
                            (Demo.fail, Demo.at_time 5)],
                           (Demo.succeed, Demo.at_time 6))])
                (NewCircuitBreaker 3 1 (Demo.ms 60000)))) = Closed /\
  failureCount
    (snd (Execute_all
            (streaks [([(Demo.fail, Demo.at_time 1);
                        (Demo.fail, Demo.at_time 2)],
                       (Demo.succeed, Demo.at_time 3));
                      ([(Demo.fail, Demo.at_time 4);
                        (Demo.fail, Demo.at_time 5)],
                       (Demo.succeed, Demo.at_time 6))])
            (NewCircuitBreaker 3 1 (Demo.ms 60000)))) = 0.
Proof.
  apply (breaker_broken_streaks_never_trip
           [([(Demo.fail, Demo.at_time 1); (Demo.fail, Demo.at_time 2)],
             (Demo.succeed, Demo.at_time 3));
            ([(Demo.fail, Demo.at_time 4); (Demo.fail, Demo.at_time 5)],
             (Demo.succeed, Demo.at_time 6))]
           (NewCircuitBreaker 3 1 (Demo.ms 60000))).
  - unfold maxInt64. simpl. lia.
  - reflexivity.
  - reflexivity.
  - repeat constructor; try discriminate; simpl; lia.
Defined.

(** X16: a failed trial restarts the cooldown.  After the trial call of
    an [Open] breaker has failed, a call that comes no more than
    [openTimeout] after that failure is rejected with [ErrCircuitOpen]
    and changes nothing, however long ago the breaker first opened. *)
Theorem breaker_failed_trial_restarts_cooldown {W : Type} `{Clock W}
        (fn fn2 : WorkFunc W) (cb : CircuitBreaker) (w w2 : W) :
  state cb = Open ->
  time_Since w (lastFailureTime cb) > openTimeout cb ->
  fst (fn w) <> None ->
  time_Since w2 (time_Now (snd (fn w))) <= openTimeout cb ->
  state (breaker (Execute fn cb w)) = Open /\
  Execute_all [(fn, w); (fn2, w2)] cb
  = ([fst (fn w); Some ErrCircuitOpen], breaker (Execute fn cb w)).
Proof.
  intros Hs Ht Hf Ht2.
  destruct (Execute_passed fn cb _ w (Execute_gate_elapsed cb w Hs Ht))
    as (Hr & _ & _ & Hb).
  destruct (fst (fn w)) as [e|] eqn:He; [|congruence].
  unfold onFailure in Hb.
  cbn [state set_successCount set_state snd] in Hb.
  split; [rewrite Hb; reflexivity|].
  cbn [Execute_all]. rewrite Hr.
  assert (HE : Execute fn2 (breaker (Execute fn cb w)) w2
               = Build_Executed (Some ErrCircuitOpen)
                                (breaker (Execute fn cb w)) w2 []).
  { rewrite Hb. unfold Execute, Execute_gate.
    cbn [state lastFailureTime openTimeout set_lastFailureTime set_state
         set_successCount].
    replace (time_Since w2 (time_Now (snd (fn w))) >? openTimeout cb)
      with false
      by (symmetry; rewrite Z.gtb_ltb; apply Z.ltb_ge; lia).
    reflexivity. }
  rewrite HE. reflexivity.
Qed.

Lemma breaker_failed_trial_restarts_cooldown_witness :
  state (Demo.tripped (Demo.ms 10)) = Open /\
  Execute_all [(Demo.fail, Demo.at_time (Demo.ms 120));
               (Demo.succeed, Demo.at_time (Demo.ms 200))]
              (Demo.tripped (Demo.ms 10))
  = ([Some Demo.errTest; Some ErrCircuitOpen], Demo.tripped (Demo.ms 120)).
Proof.
  split; [reflexivity|].
  refine (proj2 (breaker_failed_trial_restarts_cooldown
                   Demo.fail Demo.succeed (Demo.tripped (Demo.ms 10))
                   (Demo.at_time (Demo.ms 120)) (Demo.at_time (Demo.ms 200))
                   eq_refl eq_refl _ _)).
  - discriminate.
  - vm_compute. discriminate.
Defined.

Lemma Retry_invocations_bounded_witness :
  Nat.le (length (calls_of (trace (Retry Demo.Background 3 (Demo.ms 10)
                                         (Demo.fail_first 1) (Demo.at_time 0)))))
         (Z.to_nat 3) /\
  nth_error (calls_of (trace (Retry Demo.Background 3 (Demo.ms 10)
                                    (Demo.fail_first 1) (Demo.at_time 0))))
            0%nat
  = Some (Some Demo.errTest) /\
  Some Demo.errTest <> None.
Proof.
  destruct (Retry_invocations_bounded Demo.Background 3 (Demo.ms 10)
              (Demo.fail_first 1) (Demo.at_time 0)) as [Hlen Hlast].
  exact (conj Hlen (conj eq_refl
           (Hlast 0%nat (Some Demo.errTest) eq_refl ltac:(simpl; lia)))).
Defined.

Lemma Retry_nil_iff_success_witness :
  calls_of (trace (Retry Demo.Background 5 (Demo.ms 10) (Demo.fail_first 2)
                         (Demo.at_time 0)))
  = [Some Demo.errTest; Some Demo.errTest] ++ [None] /\
  result (Retry Demo.Background 5 (Demo.ms 10) (Demo.fail_first 2)
                (Demo.at_time 0)) = None.
Proof.
  split; [reflexivity|].
  apply (proj2 (Retry_nil_iff_success Demo.Background 5 (Demo.ms 10)
                                      (Demo.fail_first 2) (Demo.at_time 0))).
  right. exists [Some Demo.errTest; Some Demo.errTest]. reflexivity.
Defined.

Lemma Execute_transitions_witness :
  state (Demo.tripped (Demo.ms 10)) = Open /\
  state (breaker (Execute Demo.succeed (Demo.tripped (Demo.ms 10))
                          (Demo.at_time (Demo.ms 120)))) <> Open /\
  time_Since (Demo.at_time (Demo.ms 120))
             (lastFailureTime (Demo.tripped (Demo.ms 10)))
  > openTimeout (Demo.tripped (Demo.ms 10)).
Proof.
  assert (H1 : state (Demo.tripped (Demo.ms 10)) = Open) by reflexivity.
  assert (H2 : state (breaker (Execute Demo.succeed (Demo.tripped (Demo.ms 10))
                                       (Demo.at_time (Demo.ms 120)))) <> Open)
    by discriminate.
  destruct (Execute_transitions Demo.succeed (Demo.tripped (Demo.ms 10))
              (Demo.at_time (Demo.ms 120))) as (_ & _ & _ & Hleave).
  exact (conj H1 (conj H2 (proj1 (Hleave H1 H2)))).
Defined.

Lemma Execute_returns_witness :
  log (Execute Demo.succeed (NewCircuitBreaker 2 2 (Demo.ms 100))
               (Demo.at_time 0)) = [EvCall None] /\
  returned (Execute Demo.succeed (NewCircuitBreaker 2 2 (Demo.ms 100))
                    (Demo.at_time 0)) = None.
Proof.
  split; [reflexivity|].
  destruct (Execute_returns Demo.succeed (NewCircuitBreaker 2 2 (Demo.ms 100))
              (Demo.at_time 0)) as (_ & _ & _ & Hnil).
  apply (proj2 Hnil). reflexivity.
Defined.
